(** * A JSON-backed inventory store: model and properties

    Shallow embedding of [inventory_system.py].  The program keeps one
    global dictionary [stock_data] and offers [add_item], [remove_item],
    [get_qty], [check_low_items], [print_data], [load_data] and
    [save_data]; the last two go through [json.loads] and
    [json.dumps(..., indent=4)] on a text file.

    Layout: Python values and the operators the program applies to them,
    binary64 floats, the JSON codec, the world (global table, files, log,
    standard output) with its state-and-exception monad, the functions of
    the module, and then the properties.

    What the program takes from Python and its standard library (dict,
    int and float arithmetic, the [json] package, text files) follows
    CPython.  Left out are the limits of an interpreter (recursion depth,
    the cap on the digits of an int converted to or from text) and
    failures in the middle of a read or write; files are those of a POSIX
    system, where writing text leaves line ends as they are. *)

From Stdlib Require Import String Ascii ZArith NArith Bool Lia List.
From Stdlib Require Import SpecFloat DecimalPos.
Import ListNotations.

Local Open Scope string_scope.
Local Open Scope list_scope.
Local Open Scope Z_scope.

(* ================================================================= *)
(** ** Python values *)

(** A Python [str] is a sequence of Unicode code points (lone surrogates
    included); code points are natural numbers below [0x110000]. *)
Definition pystr := list N.

Definition lit (s : string) : pystr := map N_of_ascii (list_ascii_of_string s).

(** A literal in which the apostrophe stands for the double quote, for
    writing JSON text. *)
Definition jlit (s : string) : pystr :=
  map (fun c => if (c =? 39)%N then 34%N else c) (lit s).

Definition str_eq_dec : forall a b : pystr, {a = b} + {a <> b} :=
  list_eq_dec N.eq_dec.

Definition valid_str (s : pystr) : Prop := Forall (fun c => (c < 0x110000)%N) s.

Set Warnings "-register-all".

(** The values that can reach the program: arguments written by a caller and
    whatever [json.loads] builds.  Dictionaries keep insertion order; every
    dictionary of this program has [str] keys (JSON objects, and the keys
    [add_item] lets through). *)
Inductive pyval : Type :=
| VNone
| VBool (b : bool)
| VInt (z : Z)
| VFloat (f : spec_float)
| VStr (s : pystr)
| VList (l : list pyval)
| VDict (d : list (pystr * pyval)).

Definition dict := list (pystr * pyval).

(** [isinstance(v, str)] *)
Definition isinstance_str (v : pyval) : bool :=
  match v with VStr _ => true | _ => false end.

(** The characters of a [str] instance. *)
Definition str_of (v : pyval) : pystr :=
  match v with VStr s => s | _ => [] end.

(** [isinstance(v, int)]: [bool] is a subclass of [int]. *)
Definition isinstance_int (v : pyval) : bool :=
  match v with VInt _ | VBool _ => true | _ => false end.

(** The integer an [int] instance denotes ([True] is 1, [False] is 0). *)
Definition as_int (v : pyval) : option Z :=
  match v with
  | VInt z => Some z
  | VBool b => Some (if b then 1 else 0)
  | _ => None
  end.

Definition int_of (v : pyval) : Z :=
  match as_int v with Some z => z | None => 0 end.

(** *** Exceptions *)

Inductive exn : Type :=
| KeyError
| TypeError
| AttributeError
| OverflowError
| FileNotFoundError
| OSError             (* an [OSError] that is not a [FileNotFoundError] *)
| UnicodeDecodeError
| JSONDecodeError.

(** [isinstance(e, OSError)]; [IOError] is an alias of [OSError]. *)
Definition is_OSError (e : exn) : bool :=
  match e with FileNotFoundError | OSError => true | _ => false end.

Inductive result (A : Type) : Type :=
| Ret (a : A)
| Raise (e : exn).
Arguments Ret {A} a.
Arguments Raise {A} e.

(** *** Dictionaries *)

Fixpoint dict_get (d : dict) (k : pystr) : option pyval :=
  match d with
  | [] => None
  | (k', v) :: d' => if str_eq_dec k k' then Some v else dict_get d' k
  end.

(** [d[k] = v]: an existing key keeps its place, a new key goes last. *)
Fixpoint dict_set (d : dict) (k : pystr) (v : pyval) : dict :=
  match d with
  | [] => [(k, v)]
  | (k', v') :: d' =>
      if str_eq_dec k k' then (k', v) :: d' else (k', v') :: dict_set d' k v
  end.

(** [del d[k]]: no entry under [k] is left. *)
Fixpoint dict_del (d : dict) (k : pystr) : dict :=
  match d with
  | [] => []
  | (k', v') :: d' =>
      if str_eq_dec k k' then dict_del d' k else (k', v') :: dict_del d' k
  end.

Definition keys (d : dict) : list pystr := map fst d.

(** A model dictionary stands for a Python [dict] when its keys are
    distinct strings. *)
Definition wf_dict (d : dict) : Prop :=
  NoDup (keys d) /\ Forall valid_str (keys d).

(** *** Decimal numerals *)

(** The ASCII digits of a decimal numeral, most significant first. *)
Fixpoint uint_chars (d : Decimal.uint) : pystr :=
  match d with
  | Decimal.Nil => []
  | Decimal.D0 d' => 48%N :: uint_chars d'
  | Decimal.D1 d' => 49%N :: uint_chars d'
  | Decimal.D2 d' => 50%N :: uint_chars d'
  | Decimal.D3 d' => 51%N :: uint_chars d'
  | Decimal.D4 d' => 52%N :: uint_chars d'
  | Decimal.D5 d' => 53%N :: uint_chars d'
  | Decimal.D6 d' => 54%N :: uint_chars d'
  | Decimal.D7 d' => 55%N :: uint_chars d'
  | Decimal.D8 d' => 56%N :: uint_chars d'
  | Decimal.D9 d' => 57%N :: uint_chars d'
  end.

(* ================================================================= *)
(** ** binary64 floats *)

Module Float64.

Definition prec : Z := 53.
Definition emax : Z := 1024.

Definition add := SFadd prec emax.
Definition sub := SFsub prec emax.

(** Nearest float of an integer (ties to even); infinite when out of
    range. *)
Definition of_Z (z : Z) : spec_float := binary_normalize prec emax z 0 false.

Definition is_finite (f : spec_float) : bool :=
  match f with S754_zero _ | S754_finite _ _ _ => true | _ => false end.

Definition is_zero (f : spec_float) : bool :=
  match f with S754_zero _ => true | _ => false end.

(** Nearest float of [(-1)^s * m * 10^e]. *)
Definition of_decimal (s : bool) (m : Z) (e : Z) : spec_float :=
  match m with
  | Zpos p =>
      match e with
      | Zneg k => SFdiv prec emax (S754_finite s p 0)
                                   (S754_finite false (Pos.pow 10 k) 0)
      | _ => binary_normalize prec emax (cond_Zopp s (Zpos p * 10 ^ e)) 0 s
      end
  | _ => S754_zero s
  end.

(** Exact comparison [f <= z] of a float with an integer, as Python's
    mixed comparison does it (no rounding of [z]). *)
Definition le_Z (f : spec_float) (z : Z) : bool :=
  match f with
  | S754_nan => false
  | S754_infinity s => s
  | S754_zero _ => 0 <=? z
  | S754_finite s m e =>
      let v := cond_Zopp s (Zpos m) in
      match e with
      | Zneg k => v <=? z * Zpos (Pos.pow 2 k)
      | _ => v * 2 ^ e <=? z
      end
  end.

(** The value of a positive finite float as a fraction. *)
Definition frac (m : positive) (e : Z) : Z * Z :=
  match e with
  | Zneg k => (Zpos m, Zpos (Pos.pow 2 k))
  | _ => (Zpos m * 2 ^ e, 1)
  end.

(** [10^k <= n/d] *)
Definition pow10_le (k : Z) (nd : Z * Z) : bool :=
  let (n, d) := nd in
  match k with
  | Zneg p => d <=? n * Zpos (Pos.pow 10 p)
  | _ => 10 ^ k * d <=? n
  end.

(** [floor (n/d / 10^k)] *)
Definition scaled_floor (k : Z) (nd : Z * Z) : Z :=
  let (n, d) := nd in
  match k with
  | Zneg p => (n * Zpos (Pos.pow 10 p)) / d
  | _ => n / (d * 10 ^ k)
  end.

Fixpoint climb (fuel : nat) (k : Z) (nd : Z * Z) : Z :=
  match fuel with
  | O => k
  | S fuel' => if pow10_le (k + 1) nd then climb fuel' (k + 1) nd else k
  end.

(** [floor (log10 (n/d))], from an under-estimate through base-2 logs. *)
Definition ilog10 (nd : Z * Z) : Z :=
  let (n, d) := nd in
  let l2 := Z.log2 n - Z.log2 d - 1 in
  climb 8 ((l2 * 30102) / 100000 - 1) nd.

(** Does the decimal [c * 10^k] read back as the float [m * 2^e]? *)
Definition reads_back (m : positive) (e : Z) (c k : Z) : bool :=
  SFeqb (of_decimal false c k) (S754_finite false m e).

(** The shortest decimal [(c, k)], [c * 10^k], that reads back as the
    float; of two of the same length, the nearer one.  [n] counts up the
    number of significant digits that are tried. *)
Fixpoint shortest (fuel : nat) (n : Z) (m : positive) (e : Z) (lg : Z) : Z * Z :=
  let k := lg - n + 1 in
  let lo := scaled_floor k (frac m e) in
  match fuel with
  | O => (lo, k)
  | S fuel' =>
      let hi := lo + 1 in
      let (num, den) := frac m e in
      (* [2x <= (lo+hi) * 10^k]: [lo] is at least as near as [hi] *)
      let lo_nearer :=
        match k with
        | Zneg p => 2 * num * Zpos (Pos.pow 10 p) <=? (lo + hi) * den
        | _ => 2 * num <=? (lo + hi) * 10 ^ k * den
        end in
      match reads_back m e lo k, reads_back m e hi k with
      | true, true => if lo_nearer then (lo, k) else (hi, k)
      | true, false => (lo, k)
      | false, true => (hi, k)
      | false, false => shortest fuel' (n + 1) m e lg
      end
  end.

Fixpoint strip_zeros (fuel : nat) (c k : Z) : Z * Z :=
  match fuel with
  | O => (c, k)
  | S fuel' =>
      if (c mod 10 =? 0) && negb (c =? 0) then strip_zeros fuel' (c / 10) (k + 1)
      else (c, k)
  end.

Definition digit_chars (n : N) : pystr := uint_chars (N.to_uint n).

Definition zeros (n : Z) : pystr := repeat 48%N (Z.to_nat n).

(** The exponent suffix of [repr]: sign and at least two digits. *)
Definition exp_chars (x : Z) : pystr :=
  let ds := digit_chars (Z.to_N (Z.abs x)) in
  lit "e" ++ (if x <? 0 then lit "-" else lit "+")
          ++ (if Z.abs x <? 10 then lit "0" else []) ++ ds.

(** [float.__repr__] of a positive finite float. *)
Definition repr_pos (m : positive) (e : Z) : pystr :=
  let '(c0, k0) := shortest 17 1 m e (ilog10 (frac m e)) in
  let '(c, k) := strip_zeros 17 c0 k0 in
  let ds := digit_chars (Z.to_N c) in
  let nd := Z.of_nat (length ds) in
  let decpt := nd + k in
  if (decpt <=? -4) || (16 <? decpt) then
    firstn 1 ds ++ (if 1 <? nd then lit "." ++ skipn 1 ds else [])
                ++ exp_chars (decpt - 1)
  else if decpt <=? 0 then lit "0." ++ zeros (- decpt) ++ ds
  else if nd <=? decpt then ds ++ zeros (decpt - nd) ++ lit ".0"
  else firstn (Z.to_nat decpt) ds ++ lit "." ++ skipn (Z.to_nat decpt) ds.

(** [float.__repr__] *)
Definition repr (f : spec_float) : pystr :=
  match f with
  | S754_nan => lit "nan"
  | S754_infinity s => if s then lit "-inf" else lit "inf"
  | S754_zero s => if s then lit "-0.0" else lit "0.0"
  | S754_finite s m e => (if s then lit "-" else []) ++ repr_pos m e
  end.

End Float64.

(* ================================================================= *)
(** ** The operators the program applies to table values *)

(** [v + q] for an [int] right operand [q]. *)
Definition py_add_int (v : pyval) (q : Z) : result pyval :=
  match v with
  | VInt a => Ret (VInt (a + q))
  | VBool b => Ret (VInt ((if b then 1 else 0) + q))
  | VFloat f =>
      let g := Float64.of_Z q in
      if Float64.is_finite g then Ret (VFloat (Float64.add f g))
      else Raise OverflowError   (* int too large to convert to float *)
  | _ => Raise TypeError
  end.

(** [v - q] for an [int] right operand [q]. *)
Definition py_sub_int (v : pyval) (q : Z) : result pyval :=
  match v with
  | VInt a => Ret (VInt (a - q))
  | VBool b => Ret (VInt ((if b then 1 else 0) - q))
  | VFloat f =>
      let g := Float64.of_Z q in
      if Float64.is_finite g then Ret (VFloat (Float64.sub f g))
      else Raise OverflowError
  | _ => Raise TypeError
  end.

(** [v <= t] for an [int] right operand [t]. *)
Definition py_le_int (v : pyval) (t : Z) : result bool :=
  match v with
  | VInt a => Ret (a <=? t)
  | VBool b => Ret ((if b then 1 else 0) <=? t)
  | VFloat f => Ret (Float64.le_Z f t)
  | _ => Raise TypeError
  end.

(** Truth value, as [not v] and [if v] take it. *)
Definition truthy (v : pyval) : bool :=
  match v with
  | VNone => false
  | VBool b => b
  | VInt z => negb (z =? 0)
  | VFloat f => negb (Float64.is_zero f)
  | VStr s => match s with [] => false | _ => true end
  | VList l => match l with [] => false | _ => true end
  | VDict d => match d with [] => false | _ => true end
  end.

(* ================================================================= *)
(** ** The JSON codec of the standard library *)

Module Json.

(** *** [json.dumps(obj, indent=4)] *)

Definition hex_digit (n : N) : N :=
  (if n <? 10 then 48 + n else 87 + n)%N.

(** [\uxxxx], four lower-case hexadecimal digits *)
Definition u_escape (c : N) : pystr :=
  [92; 117; hex_digit (N.shiftr c 12); hex_digit (N.land (N.shiftr c 8) 15);
   hex_digit (N.land (N.shiftr c 4) 15); hex_digit (N.land c 15)]%N.

(** One character under [ensure_ascii=True]: the short escapes, printable
    ASCII as it is, everything else as [\uxxxx], a surrogate pair above
    the basic plane. *)
Definition escape_char (c : N) : pystr :=
  (if c =? 34 then [92; 34]
   else if c =? 92 then [92; 92]
   else if c =? 10 then [92; 110]
   else if c =? 13 then [92; 114]
   else if c =? 9 then [92; 116]
   else if c =? 8 then [92; 98]
   else if c =? 12 then [92; 102]
   else if (32 <=? c) && (c <=? 126) then [c]
   else if c <? 0x10000 then u_escape c
   else
     let n := c - 0x10000 in
     u_escape (N.lor 0xd800 (N.land (N.shiftr n 10) 0x3ff))
       ++ u_escape (N.lor 0xdc00 (N.land n 0x3ff)))%N.

(** [encode_basestring_ascii] *)
Definition encode_str (s : pystr) : pystr :=
  [34%N] ++ flat_map escape_char s ++ [34%N].

(** [int.__repr__] *)
Definition int_repr (z : Z) : pystr :=
  match z with
  | Z0 => lit "0"
  | Zpos p => uint_chars (Pos.to_uint p)
  | Zneg p => lit "-" ++ uint_chars (Pos.to_uint p)
  end.

(** [floatstr], with [allow_nan=True] *)
Definition float_repr (f : spec_float) : pystr :=
  match f with
  | S754_nan => lit "NaN"
  | S754_infinity false => lit "Infinity"
  | S754_infinity true => lit "-Infinity"
  | _ => Float64.repr f
  end.

Fixpoint join (sep : pystr) (parts : list pystr) : pystr :=
  match parts with
  | [] => []
  | [p] => p
  | p :: ps => p ++ sep ++ join sep ps
  end.

(** A line break followed by [level] indentation steps of four spaces. *)
Definition newline_indent (level : nat) : pystr :=
  10%N :: repeat 32%N (4 * level).

(** [_iterencode] at nesting depth [level], item separator [","], key
    separator [": "]. *)
Fixpoint encode (level : nat) (v : pyval) : pystr :=
  match v with
  | VStr s => encode_str s
  | VNone => lit "null"
  | VBool true => lit "true"
  | VBool false => lit "false"
  | VInt z => int_repr z
  | VFloat f => float_repr f
  | VList [] => lit "[]"
  | VList l =>
      lit "[" ++ newline_indent (S level)
        ++ join (lit "," ++ newline_indent (S level)) (map (encode (S level)) l)
        ++ newline_indent level ++ lit "]"
  | VDict [] => lit "{}"
  | VDict d =>
      lit "{" ++ newline_indent (S level)
        ++ join (lit "," ++ newline_indent (S level))
             (map (fun kv => encode_str (fst kv) ++ lit ": " ++ encode (S level) (snd kv)) d)
        ++ newline_indent level ++ lit "}"
  end.

Definition dumps (v : pyval) : pystr := encode 0 v.

(** *** [json.loads(s)] *)

Inductive scan (A : Type) : Type :=
| Scanned (a : A) (rest : pystr)
| Invalid                          (* the input is not JSON here *)
| Exhausted.                       (* the recursion budget ran out *)
Arguments Scanned {A} a rest.
Arguments Invalid {A}.
Arguments Exhausted {A}.

Definition is_ws (c : N) : bool :=
  ((c =? 32) || (c =? 9) || (c =? 10) || (c =? 13))%N.

Fixpoint skip_ws (s : pystr) : pystr :=
  match s with
  | c :: s' => if is_ws c then skip_ws s' else s
  | [] => []
  end.

Definition is_digit (c : N) : bool := ((48 <=? c) && (c <=? 57))%N.

Definition hex_value (c : N) : option N :=
  (if is_digit c then Some (c - 48)
   else if (97 <=? c) && (c <=? 102) then Some (c - 87)
   else if (65 <=? c) && (c <=? 70) then Some (c - 55)
   else None)%N.

(** [_decode_uXXXX] *)
Definition hex4 (a b c d : N) : option N :=
  match hex_value a, hex_value b, hex_value c, hex_value d with
  | Some x, Some y, Some z, Some w => Some (((x * 16 + y) * 16 + z) * 16 + w)%N
  | _, _, _, _ => None
  end.

Definition is_high_surrogate (c : N) : bool := ((0xd800 <=? c) && (c <=? 0xdbff))%N.
Definition is_low_surrogate (c : N) : bool := ((0xdc00 <=? c) && (c <=? 0xdfff))%N.

Definition join_surrogates (hi lo : N) : N :=
  (0x10000 + N.lor (N.shiftl (hi - 0xd800) 10) (lo - 0xdc00))%N.

(** The [BACKSLASH] table *)
Definition simple_escape (e : N) : option N :=
  (if e =? 34 then Some 34
   else if e =? 92 then Some 92
   else if e =? 47 then Some 47
   else if e =? 98 then Some 8
   else if e =? 102 then Some 12
   else if e =? 110 then Some 10
   else if e =? 114 then Some 13
   else if e =? 116 then Some 9
   else None)%N.

(** [scanstring] in strict mode, from just after the opening quote; [acc]
    holds the characters read so far, last first.  A [\uxxxx] high
    surrogate directly followed by a [\uxxxx] low surrogate is joined
    into one code point. *)
Fixpoint scanstring (s : pystr) (acc : pystr) : scan pystr :=
  match s with
  | [] => Invalid
  | c :: s1 =>
      if (c =? 34)%N then Scanned (rev acc) s1
      else if (c =? 92)%N then
        match s1 with
        | [] => Invalid
        | e :: s2 =>
            if (e =? 117)%N then
              match s2 with
              | h1 :: h2 :: h3 :: h4 :: s3 =>
                  match hex4 h1 h2 h3 h4 with
                  | None => Invalid
                  | Some uni =>
                      if is_high_surrogate uni then
                        match s3 with
                        | b :: u :: l1 :: l2 :: l3 :: l4 :: s4 =>
                            if ((b =? 92) && (u =? 117))%N then
                              match hex4 l1 l2 l3 l4 with
                              | None => Invalid
                              | Some uni2 =>
                                  if is_low_surrogate uni2
                                  then scanstring s4 (join_surrogates uni uni2 :: acc)
                                  else scanstring s3 (uni :: acc)
                              end
                            else scanstring s3 (uni :: acc)
                        | _ => scanstring s3 (uni :: acc)
                        end
                      else scanstring s3 (uni :: acc)
                  end
              | _ => Invalid
              end
            else
              match simple_escape e with
              | Some ch => scanstring s2 (ch :: acc)
              | None => Invalid
              end
        end
      else if (c <? 32)%N then Invalid
      else scanstring s1 (c :: acc)
  end.

Fixpoint span_digits (s : pystr) : pystr * pystr :=
  match s with
  | c :: s' =>
      if is_digit c then let (ds, r) := span_digits s' in (c :: ds, r)
      else ([], s)
  | [] => ([], [])
  end.

Definition digits_value (ds : pystr) : N :=
  fold_left (fun a c => (10 * a + (c - 48))%N) ds 0%N.

(** If [s] starts with [p], what follows it. *)
Fixpoint strip_prefix (p s : pystr) : option pystr :=
  match p, s with
  | [], _ => Some s
  | a :: p', b :: s' => if (a =? b)%N then strip_prefix p' s' else None
  | _ :: _, [] => None
  end.

(** The integer part of [NUMBER_RE], an optional minus sign and then
    either a single 0 or a non-zero digit with any digits after it:
    sign, digits, rest. *)
Definition match_integer (s : pystr) : option (bool * pystr * pystr) :=
  let (neg, s1) :=
    match s with
    | c :: r => if (c =? 45)%N then (true, r) else (false, s)
    | [] => (false, s)
    end in
  match s1 with
  | c :: r =>
      if (c =? 48)%N then Some (neg, [c], r)
      else if is_digit c then
        let (ds, r') := span_digits s1 in Some (neg, ds, r')
      else None
  | [] => None
  end.

(** The optional fraction, a dot and at least one digit: its digits
    (none when the group does not match) and the rest. *)
Definition match_frac (s : pystr) : pystr * pystr :=
  match s with
  | c :: r =>
      if (c =? 46)%N then
        match span_digits r with
        | ([], _) => ([], s)
        | (fs, r') => (fs, r')
        end
      else ([], s)
  | [] => ([], s)
  end.

(** The optional exponent, [e] or [E], an optional sign and at least one
    digit: sign and digits when the group matches, and the rest. *)
Definition match_exp (s : pystr) : option (bool * pystr) * pystr :=
  match s with
  | c :: r =>
      if ((c =? 101) || (c =? 69))%N then
        let (neg, r1) :=
          match r with
          | g :: r0 =>
              if (g =? 45)%N then (true, r0)
              else if (g =? 43)%N then (false, r0)
              else (false, r)
          | [] => (false, r)
          end in
        match span_digits r1 with
        | ([], _) => (None, s)
        | (es, r') => (Some (neg, es), r')
        end
      else (None, s)
  | [] => (None, s)
  end.

(** [match_number] and the conversion of its groups: an [int] when there
    is neither fraction nor exponent, a [float] otherwise. *)
Definition scan_number (s : pystr) : option (pyval * pystr) :=
  match match_integer s with
  | None => None
  | Some (neg, ds, r) =>
      let (fs, r1) := match_frac r in
      let (ex, r2) := match_exp r1 in
      match fs, ex with
      | [], None =>
          Some (VInt (cond_Zopp neg (Z.of_N (digits_value ds))), r2)
      | _, _ =>
          let e := match ex with
                   | Some (eneg, es) => cond_Zopp eneg (Z.of_N (digits_value es))
                   | None => 0
                   end in
          Some (VFloat (Float64.of_decimal neg (Z.of_N (digits_value (ds ++ fs)))
                          (e - Z.of_nat (length fs))), r2)
      end
  end.

(** The last cases of [scan_once]: [null], [true], [false], a number,
    and then [NaN], [Infinity] and [-Infinity]. *)
Definition scan_atom (s : pystr) : scan pyval :=
  match strip_prefix (lit "null") s, strip_prefix (lit "true") s,
        strip_prefix (lit "false") s with
  | Some r, _, _ => Scanned VNone r
  | _, Some r, _ => Scanned (VBool true) r
  | _, _, Some r => Scanned (VBool false) r
  | None, None, None =>
      match scan_number s with
      | Some (v, r) => Scanned v r
      | None =>
          match strip_prefix (lit "NaN") s,
                strip_prefix (lit "Infinity") s,
                strip_prefix (lit "-Infinity") s with
          | Some r, _, _ => Scanned (VFloat S754_nan) r
          | _, Some r, _ => Scanned (VFloat (S754_infinity false)) r
          | _, _, Some r => Scanned (VFloat (S754_infinity true)) r
          | None, None, None => Invalid
          end
      end
  end.

(** [dict(pairs)]: a repeated key keeps its first place and takes the
    last value. *)
Definition dict_of_pairs (pairs : list (pystr * pyval)) : dict :=
  fold_left (fun d kv => dict_set d (fst kv) (snd kv)) pairs [].

(** [scan_once], [JSONArray] and [JSONObject].  [array_items] starts at
    the first character of an element, [object_items] just after the
    opening quote of a key; both carry what they have read, last first. *)
Fixpoint scan_once (fuel : nat) (s : pystr) : scan pyval :=
  match fuel with
  | O => Exhausted
  | S fuel' =>
      match s with
      | [] => Invalid
      | c :: s' =>
          if (c =? 34)%N then
            match scanstring s' [] with
            | Scanned str r => Scanned (VStr str) r
            | Invalid => Invalid
            | Exhausted => Exhausted
            end
          else if (c =? 123)%N then
            match skip_ws s' with
            | c1 :: r1 =>
                if (c1 =? 125)%N then Scanned (VDict []) r1
                else if (c1 =? 34)%N then object_items fuel' r1 []
                else Invalid
            | [] => Invalid
            end
          else if (c =? 91)%N then
            match skip_ws s' with
            | c1 :: r1 =>
                if (c1 =? 93)%N then Scanned (VList []) r1
                else array_items fuel' (c1 :: r1) []
            | [] => Invalid
            end
          else scan_atom s
      end
  end

with array_items (fuel : nat) (s : pystr) (acc : list pyval) : scan pyval :=
  match fuel with
  | O => Exhausted
  | S fuel' =>
      match scan_once fuel' s with
      | Scanned v r =>
          match skip_ws r with
          | c :: r1 =>
              if (c =? 93)%N then Scanned (VList (rev (v :: acc))) r1
              else if (c =? 44)%N then array_items fuel' (skip_ws r1) (v :: acc)
              else Invalid
          | [] => Invalid
          end
      | Invalid => Invalid
      | Exhausted => Exhausted
      end
  end

with object_items (fuel : nat) (s : pystr) (acc : list (pystr * pyval)) : scan pyval :=
  match fuel with
  | O => Exhausted
  | S fuel' =>
      match scanstring s [] with
      | Scanned key r =>
          match skip_ws r with
          | c :: r1 =>
              if (c =? 58)%N then
                match scan_once fuel' (skip_ws r1) with
                | Scanned v r2 =>
                    match skip_ws r2 with
                    | c2 :: r3 =>
                        if (c2 =? 125)%N
                        then Scanned (VDict (dict_of_pairs (rev ((key, v) :: acc)))) r3
                        else if (c2 =? 44)%N then
                          match skip_ws r3 with
                          | c3 :: r4 =>
                              if (c3 =? 34)%N
                              then object_items fuel' r4 ((key, v) :: acc)
                              else Invalid
                          | [] => Invalid
                          end
                        else Invalid
                    | [] => Invalid
                    end
                | Invalid => Invalid
                | Exhausted => Exhausted
                end
              else Invalid
          | [] => Invalid
          end
      | Invalid => Invalid
      | Exhausted => Exhausted
      end
  end.

(** A budget no document exhausts: two steps for every character. *)
Definition budget (s : pystr) : nat := S (2 * length s).

(** [json.loads]: no byte-order mark, one value, nothing but white space
    around it; anything else is a [JSONDecodeError]. *)
Definition loads (s : pystr) : result pyval :=
  match s with
  | 0xfeff%N :: _ => Raise JSONDecodeError
  | _ =>
      match scan_once (budget s) (skip_ws s) with
      | Scanned v r =>
          match skip_ws r with
          | [] => Ret v
          | _ :: _ => Raise JSONDecodeError
          end
      | Invalid | Exhausted => Raise JSONDecodeError
      end
  end.

End Json.

(* ================================================================= *)
(** ** The world of the program *)

(** What a path holds.  The content of a text file is its characters as
    decoded from UTF-8. *)
Inductive node : Type :=
| Absent (creatable : bool)   (* no such file; [creatable]: opening it for
                                 writing makes it *)
| Denied                      (* opening it raises an [OSError] other than
                                 [FileNotFoundError], for reading or writing *)
| Undecodable                 (* a file whose bytes are not UTF-8 *)
| Text (content : pystr).

Inductive level : Type := INFO | WARNING | ERROR.

Inductive logarg : Type :=
| AVal (v : pyval)
| AExn (e : exn).

(** A call of [logging.info], [logging.warning] or [logging.error]: the
    format string and its arguments, not yet merged (the logging module
    merges them on its own and swallows what goes wrong there). *)
Record log_record : Type := mkLog {
  log_level : level;
  log_format : string;
  log_args : list logarg
}.

(** A piece of a printed line: literal text, or [str(v)] of a value. *)
Inductive piece : Type :=
| Lit (s : string)
| Str (v : pyval).

Record world : Type := mkWorld {
  stock_data : pyval;             (* the global [stock_data] *)
  files : pystr -> node;
  log : list log_record;          (* oldest first *)
  stdout : list (list piece)      (* the lines printed, oldest first *)
}.

Definition set_stock (v : pyval) (w : world) : world :=
  mkWorld v (files w) (log w) (stdout w).

Definition set_file (path : pystr) (n : node) (w : world) : world :=
  mkWorld (stock_data w)
          (fun p => if str_eq_dec p path then n else files w p)
          (log w) (stdout w).

(** *** Computations: state that survives a raised exception *)

Definition M (A : Type) : Type := world -> result A * world.

Definition ret {A} (a : A) : M A := fun w => (Ret a, w).

Definition bind {A B} (c : M A) (k : A -> M B) : M B :=
  fun w =>
    match c w with
    | (Ret a, w') => k a w'
    | (Raise e, w') => (Raise e, w')
    end.

Definition lift {A} (r : result A) : M A := fun w => (r, w).

Declare Scope py_scope.
Delimit Scope py_scope with py.
Notation "x <- c ;; k" := (bind c (fun x => k))
  (at level 61, c at next level, right associativity) : py_scope.
Notation "c ;; k" := (bind c (fun _ => k))
  (at level 61, right associativity) : py_scope.
Local Open Scope py_scope.

(** An [except] clause: which exceptions it takes, and its body. *)
Definition clause (A : Type) : Type := (exn -> bool) * (exn -> M A).

Fixpoint first_clause {A} (cs : list (clause A)) (e : exn) : option (M A) :=
  match cs with
  | [] => None
  | (takes, body) :: cs' => if takes e then Some (body e) else first_clause cs' e
  end.

(** [try: body except ...:]: the first clause that takes the exception
    runs, from the state the exception left; with none, it goes on up. *)
Definition try_except {A} (body : M A) (cs : list (clause A)) : M A :=
  fun w =>
    match body w with
    | (Ret a, w') => (Ret a, w')
    | (Raise e, w') =>
        match first_clause cs e with
        | Some handler => handler w'
        | None => (Raise e, w')
        end
    end.

Definition is_KeyError (e : exn) : bool :=
  match e with KeyError => true | _ => false end.
Definition is_FileNotFoundError (e : exn) : bool :=
  match e with FileNotFoundError => true | _ => false end.
Definition is_JSONDecodeError (e : exn) : bool :=
  match e with JSONDecodeError => true | _ => false end.

(** *** Primitive effects *)

Definition logging (l : level) (fmt : string) (args : list logarg) : M unit :=
  fun w => (Ret tt, mkWorld (stock_data w) (files w)
                            (log w ++ [mkLog l fmt args]) (stdout w)).

Definition print (line : list piece) : M unit :=
  fun w => (Ret tt, mkWorld (stock_data w) (files w) (log w)
                            (stdout w ++ [line])).

(** [stock_data.get(k, default)] *)
Definition stock_get (k : pystr) (default : pyval) : M pyval :=
  fun w =>
    match stock_data w with
    | VDict d =>
        (Ret (match dict_get d k with Some v => v | None => default end), w)
    | _ => (Raise AttributeError, w)
    end.

(** [stock_data[k]] *)
Definition stock_getitem (k : pystr) : M pyval :=
  fun w =>
    match stock_data w with
    | VDict d =>
        match dict_get d k with
        | Some v => (Ret v, w)
        | None => (Raise KeyError, w)
        end
    | _ => (Raise TypeError, w)
    end.

(** [stock_data[k] = v] *)
Definition stock_setitem (k : pystr) (v : pyval) : M unit :=
  fun w =>
    match stock_data w with
    | VDict d => (Ret tt, set_stock (VDict (dict_set d k v)) w)
    | _ => (Raise TypeError, w)
    end.

(** [del stock_data[k]] *)
Definition stock_delitem (k : pystr) : M unit :=
  fun w =>
    match stock_data w with
    | VDict d =>
        match dict_get d k with
        | Some _ => (Ret tt, set_stock (VDict (dict_del d k)) w)
        | None => (Raise KeyError, w)
        end
    | _ => (Raise TypeError, w)
    end.

(** [stock_data.items()] *)
Definition stock_items : M dict :=
  fun w =>
    match stock_data w with
    | VDict d => (Ret d, w)
    | _ => (Raise AttributeError, w)
    end.

(** Reading in text mode turns [\r\n] and a lone [\r] into [\n]. *)
Fixpoint universal_newlines (s : pystr) : pystr :=
  match s with
  | [] => []
  | c :: s' =>
      if (c =? 13)%N then
        match s' with
        | c' :: s'' =>
            if (c' =? 10)%N then 10%N :: universal_newlines s''
            else 10%N :: universal_newlines s'
        | [] => [10%N]
        end
      else c :: universal_newlines s'
  end.

(** [open(path, "r", encoding="utf-8")] followed by [f.read()] *)
Definition read_text (path : pystr) : M pystr :=
  fun w =>
    match files w path with
    | Absent _ => (Raise FileNotFoundError, w)
    | Denied => (Raise OSError, w)
    | Undecodable => (Raise UnicodeDecodeError, w)
    | Text t => (Ret (universal_newlines t), w)
    end.

(** [open(path, "w", encoding="utf-8")]: the file is created or emptied. *)
Definition open_write (path : pystr) : M unit :=
  fun w =>
    match files w path with
    | Absent false => (Raise FileNotFoundError, w)
    | Denied => (Raise OSError, w)
    | _ => (Ret tt, set_file path (Text []) w)
    end.

(** [f.write(text)] on the file just opened *)
Definition write_text (path : pystr) (text : pystr) : M unit :=
  fun w => (Ret tt, set_file path (Text text) w).

(* ================================================================= *)
(** ** The functions of [inventory_system.py] *)

Definition add_item (item qty : pyval) : M unit :=
  if negb (isinstance_str item) || negb (truthy item) then
    logging ERROR "Invalid item name: '%s'. Must be non-empty string." [AVal item]
  else if negb (isinstance_int qty) then
    logging ERROR "Invalid quantity: '%s'. Must be an integer." [AVal qty]
  else if int_of qty <? 0 then
    logging WARNING "Invalid quantity: %d. Cannot add negative amount." [AVal qty]
  else
    old <- stock_get (str_of item) (VInt 0) ;;
    new <- lift (py_add_int old (int_of qty)) ;;
    stock_setitem (str_of item) new ;;
    total <- stock_getitem (str_of item) ;;
    logging INFO "Added %d of '%s'. New total: %d"
            [AVal qty; AVal item; AVal total].

Definition remove_item (item qty : pyval) : M unit :=
  if negb (isinstance_str item) || negb (truthy item) then
    logging ERROR "Invalid item name: '%s'. Must be non-empty string." [AVal item]
  else if negb (isinstance_int qty) then
    logging ERROR "Invalid quantity: '%s'. Must be an integer." [AVal qty]
  else if int_of qty <? 0 then
    logging WARNING "Invalid quantity: %d. Cannot remove negative amount." [AVal qty]
  else
    try_except
      (old <- stock_getitem (str_of item) ;;
       new <- lift (py_sub_int old (int_of qty)) ;;
       stock_setitem (str_of item) new ;;
       total <- stock_getitem (str_of item) ;;
       logging INFO "Removed %d of '%s'. New total: %d"
               [AVal qty; AVal item; AVal total] ;;
       left <- stock_getitem (str_of item) ;;
       gone <- lift (py_le_int left 0) ;;
       if gone then
         stock_delitem (str_of item) ;;
         logging INFO "Item '%s' removed from stock (quantity <= 0)." [AVal item]
       else ret tt)
      [(is_KeyError,
        fun _ => logging WARNING "Item '%s' not in stock, cannot remove."
                         [AVal item])].

Definition get_qty (item : pyval) : M pyval :=
  if negb (isinstance_str item) then
    logging ERROR "Invalid item name: '%s'. Must be a string." [AVal item] ;;
    ret (VInt 0)
  else stock_get (str_of item) (VInt 0).

(** The [try] block returns the data; each [except] clause logs and falls
    through to the final [return {}]. *)
Definition load_data (file : pystr) : M pyval :=
  loaded <-
    try_except
      (text <- read_text file ;;
       data <- lift (Json.loads text) ;;
       logging INFO "Successfully loaded data from %s" [AVal (VStr file)] ;;
       ret (Some data))
      [(is_FileNotFoundError,
        fun _ => logging WARNING "File '%s' not found. Starting empty stock."
                         [AVal (VStr file)] ;;
                 ret None);
       (is_JSONDecodeError,
        fun _ => logging ERROR "JSON decode error in '%s'. Starting empty stock."
                         [AVal (VStr file)] ;;
                 ret None);
       (is_OSError,
        fun e => logging ERROR "Error loading data from %s: %s"
                         [AVal (VStr file); AExn e] ;;
                 ret None)] ;;
  match loaded with
  | Some data => ret data
  | None => ret (VDict [])
  end.

Definition save_data (file : pystr) : M unit :=
  try_except
    (open_write file ;;
     table <- (fun w => (Ret (stock_data w), w)) ;;
     write_text file (Json.dumps table) ;;
     logging INFO "Successfully saved data to %s" [AVal (VStr file)])
    [(is_OSError,
      fun e => logging ERROR "Could not write to file '%s': %s"
                       [AVal (VStr file); AExn e])].

Definition newline : string := String (ascii_of_nat 10) EmptyString.

Fixpoint print_items (items : dict) : M unit :=
  match items with
  | [] => ret tt
  | (item, quantity) :: rest =>
      print [Lit "  "; Str (VStr item); Lit ": "; Str quantity] ;;
      print_items rest
  end.

Definition print_data : M unit :=
  print [Lit (newline ++ "--- Items Report ---")] ;;
  table <- (fun w => (Ret (stock_data w), w)) ;;
  (if negb (truthy table) then print [Lit "  Stock is empty."]
   else items <- stock_items ;; print_items items) ;;
  print [Lit ("--------------------" ++ newline)].

(** The loop of [check_low_items] over a snapshot of the items; [found]
    holds the names appended so far. *)
Fixpoint low_items (items : dict) (threshold : Z) (found : list pyval)
  : result (list pyval) :=
  match items with
  | [] => Ret found
  | (item, quantity) :: rest =>
      match py_le_int quantity threshold with
      | Ret true => low_items rest threshold (found ++ [VStr item])
      | Ret false => low_items rest threshold found
      | Raise e => Raise e
      end
  end.

(** [threshold] is taken at its annotated type, [int]. *)
Definition check_low_items (threshold : Z) : M pyval :=
  items <- stock_items ;;
  found <- lift (low_items items threshold []) ;;
  ret (VList found).

Definition default_file : pystr := lit "inventory.json".

Definition main : M unit :=
  data <- load_data default_file ;;
  (fun w => (Ret tt, set_stock data w)) ;;
  add_item (VStr (lit "apple")) (VInt 10) ;;
  add_item (VStr (lit "banana")) (VInt 8) ;;
  add_item (VInt 123) (VStr (lit "ten")) ;;
  add_item (VStr (lit "pear")) (VInt (-2)) ;;
  remove_item (VStr (lit "apple")) (VInt 3) ;;
  remove_item (VStr (lit "orange")) (VInt 1) ;;
  remove_item (VStr (lit "banana")) (VInt (-1)) ;;
  apple <- get_qty (VStr (lit "apple")) ;;
  print [Lit "Apple stock: "; Str apple] ;;
  orange <- get_qty (VStr (lit "orange")) ;;
  print [Lit "Orange stock: "; Str orange] ;;
  low <- check_low_items 5 ;;
  print [Lit "Low items: "; Str low] ;;
  print_data ;;
  save_data default_file.

(* ================================================================= *)
(** ** Vocabulary of the properties *)

(** The operations of the store.  [Load] is the assignment
    [stock_data = load_data(path)] of [main]. *)
Inductive op : Type :=
| Add (item qty : pyval)
| Remove (item qty : pyval)
| GetQuantity (item : pyval)
| ListLowStock (threshold : Z)
| FormatReport
| Save (path : pystr)
| Load (path : pystr).

Definition run_op (o : op) : M unit :=
  match o with
  | Add item qty => add_item item qty
  | Remove item qty => remove_item item qty
  | GetQuantity item => _ <- get_qty item ;; ret tt
  | ListLowStock threshold => _ <- check_low_items threshold ;; ret tt
  | FormatReport => print_data
  | Save path => save_data path
  | Load path => data <- load_data path ;; (fun w => (Ret tt, set_stock data w))
  end.

Definition is_positive_int (v : pyval) : bool :=
  match v with VInt z => 0 <? z | _ => false end.

(** The invariant of the stock table: a dictionary whose values are all
    positive integers. *)
Definition invariant (table : pyval) : bool :=
  match table with
  | VDict d => forallb (fun kv => is_positive_int (snd kv)) d
  | _ => false
  end.

(** The entry of a table under a key, if any. *)
Definition entry (table : pyval) (k : pystr) : option pyval :=
  match table with
  | VDict d => dict_get d k
  | _ => None
  end.

Definition empty_world (fs : pystr -> node) : world := mkWorld (VDict []) fs [] [].

(** A world with the empty table and one file, [inventory.json], that
    holds [{"pear": 0}]. *)
Definition pear_world : world :=
  empty_world (fun p => if str_eq_dec p (lit "inventory.json")
                        then Text (jlit "{'pear': 0}") else Absent true).

(** A world whose table has one key, made of the two lone surrogates
    U+D83D and U+DE00, and no file yet. *)
Definition surrogate_world : world :=
  mkWorld (VDict [([0xd83d; 0xde00]%N, VInt 1)]) (fun _ => Absent true) [] [].

(** The table of the reference run, [{"apple": 7, "banana": 8}], with no
    file yet. *)
Definition fruit_world : world :=
  mkWorld (VDict [(lit "apple", VInt 7); (lit "banana", VInt 8)])
          (fun _ => Absent true) [] [].

(** Only the log may differ. *)
Definition same_state (w w' : world) : Prop :=
  stock_data w' = stock_data w /\ files w' = files w /\ stdout w' = stdout w.

(** The operations that keep the invariant: every one but an [add] of
    quantity 0 and a [load] whose file decodes to a value outside the
    invariant. *)
Definition admissible (o : op) (w : world) : bool :=
  match o with
  | Add _ qty => match as_int qty with Some 0 => false | _ => true end
  | Load path =>
      match load_data path w with
      | (Ret data, _) => invariant data
      | (Raise _, _) => true
      end
  | _ => true
  end.

(** Can the path be opened for writing? *)
Definition writable (n : node) : bool :=
  match n with
  | Absent false | Denied => false
  | _ => true
  end.

(** No high surrogate directly followed by a low surrogate. *)
Fixpoint no_surrogate_pair (s : pystr) : bool :=
  match s with
  | a :: (b :: _) as s' =>
      negb (Json.is_high_surrogate a && Json.is_low_surrogate b)
      && no_surrogate_pair s'
  | _ => true
  end.

(** Does the text start with the [\uxxxx] escape of a low surrogate (or
    with a broken [\u] escape)?  That is what [scanstring] looks for
    after a high surrogate. *)
Definition starts_low_escape (t : pystr) : bool :=
  match t with
  | b :: u :: l1 :: l2 :: l3 :: l4 :: _ =>
      ((b =? 92) && (u =? 117))%N
      && match Json.hex4 l1 l2 l3 l4 with
         | Some x => Json.is_low_surrogate x
         | None => true
         end
  | _ => false
  end.

(** Can a number literal end before this text?  Not before a digit, a
    dot or an exponent mark. *)
Definition ends_number (t : pystr) : bool :=
  match t with
  | [] => true
  | c :: _ => negb (Json.is_digit c || (c =? 46) || (c =? 101) || (c =? 69))%N
  end.

(** A table whose values are all of type [int]. *)
Definition int_valued (d : dict) : bool :=
  forallb (fun kv => match snd kv with VInt _ => true | _ => false end) d.

(** The text of one member of a top-level object, and of all of them with
    their separators, as [Json.encode] lays them out. *)
Definition member (kv : pystr * pyval) : pystr :=
  Json.encode_str (fst kv) ++ lit ": " ++ Json.encode 1 (snd kv).

Definition separator : pystr := lit "," ++ Json.newline_indent 1.

Definition members (d : dict) : pystr := Json.join separator (map member d).

(** Keys that are Python strings and survive the JSON escapes. *)
Definition plain_keys (d : dict) : Prop :=
  Forall (fun k => valid_str k /\ no_surrogate_pair k = true) (keys d).

(** The names of a table whose integer quantity is at most the
    threshold, in table order. *)
Definition low_names (d : dict) (threshold : Z) : list pyval :=
  map (fun kv => VStr (fst kv))
      (filter (fun kv => match as_int (snd kv) with
                         | Some z => z <=? threshold
                         | None => false
                         end) d).

(** [d.get(k, 0)] *)
Definition stored (d : dict) (k : pystr) : pyval :=
  match dict_get d k with Some v => v | None => VInt 0 end.

(** The keys of a table, in order; none when it is no dictionary. *)
Definition table_keys (table : pyval) : list pystr :=
  match table with VDict d => keys d | _ => [] end.

Definition is_dict (v : pyval) : bool :=
  match v with VDict _ => true | _ => false end.

(** The values [+], [-] and [<=] accept next to an [int]. *)
Definition is_number (v : pyval) : bool :=
  match v with VInt _ | VBool _ | VFloat _ => true | _ => false end.

(** The lines [print_data] prints between its header and footer. *)
Definition report_lines (table : pyval) : list (list piece) :=
  match table with
  | VDict (kv :: d) =>
      map (fun kv => [Lit "  "; Str (VStr (fst kv)); Lit ": "; Str (snd kv)])
          (kv :: d)
  | _ => [[Lit "  Stock is empty."]]
  end.

(** The integer stored under a key, 0 when there is none. *)
Definition quantity (d : dict) (k : pystr) : Z :=
  match dict_get d k with Some (VInt n) => n | _ => 0 end.






(** A computation that never changes a file, and one that changes no
    file unless it returns. *)
Definition keeps_files {A : Type} (c : M A) : Prop :=
  forall w, files (snd (c w)) = files w.

Definition writes_only_on_return {A : Type} (c : M A) : Prop :=
  forall w e, fst (c w) = Raise e -> files (snd (c w)) = files w.

(* ================================================================= *)
(** ** The model on concrete inputs *)

(** [float.__repr__]: shortest digits that read back, exponent form from
    [1e16] up and below [1e-4]. *)
Example repr_samples :
  map (fun f => Float64.repr f)
      [Float64.of_decimal false 1 (-1); Float64.of_decimal false 15 (-1);
       Float64.of_decimal false 1 16; Float64.of_decimal false 1 15;
       Float64.of_decimal false 1 (-4); Float64.of_decimal false 1 (-5);
       Float64.of_decimal false 5 (-324);
       Float64.add (Float64.of_decimal false 1 (-1)) (Float64.of_decimal false 2 (-1));
       Float64.of_Z 9007199254740993; Float64.of_decimal true 25 (-1)]
  = [lit "0.1"; lit "1.5"; lit "1e+16"; lit "1000000000000000.0";
     lit "0.0001"; lit "1e-05"; lit "5e-324"; lit "0.30000000000000004";
     lit "9007199254740992.0"; lit "-2.5"].
Proof. vm_compute. reflexivity. Qed.

(** [json.dumps(..., indent=4)] on a nested value. *)
Example dumps_sample :
  Json.dumps (VDict [(lit "apple", VInt 7);
                     (lit "more", VList [VNone; VBool true; VInt (-3); VDict [];
                                         VStr [233; 10]%N])])
  = jlit "{" ++ [10%N]
    ++ jlit "    'apple': 7," ++ [10%N]
    ++ jlit "    'more': [" ++ [10%N]
    ++ jlit "        null," ++ [10%N]
    ++ jlit "        true," ++ [10%N]
    ++ jlit "        -3," ++ [10%N]
    ++ jlit "        {}," ++ [10%N]
    ++ jlit "        '\u00e9\n'" ++ [10%N]
    ++ jlit "    ]" ++ [10%N]
    ++ jlit "}".
Proof. vm_compute. reflexivity. Qed.

(** [json.loads]: numbers, constants, escapes, a repeated key; and some
    of what it rejects. *)
Example loads_samples :
  Json.loads (jlit " [1, 2.5e3, -0, -0.0, NaN, -Infinity, 'A\u00e9\n', {'a':1, 'b':2,'a':3}] ")
  = Ret (VList [VInt 1; VFloat (Float64.of_Z 2500); VInt 0;
                VFloat (S754_zero true); VFloat S754_nan;
                VFloat (S754_infinity true); VStr [65; 233; 10]%N;
                VDict [(lit "a", VInt 3); (lit "b", VInt 2)]]) /\
  Json.loads (jlit "{bad") = Raise JSONDecodeError /\
  Json.loads (jlit "[1,]") = Raise JSONDecodeError /\
  Json.loads (jlit "{'a': 1,}") = Raise JSONDecodeError /\
  Json.loads (jlit "01") = Raise JSONDecodeError /\
  Json.loads (jlit "1.") = Raise JSONDecodeError /\
  Json.loads (jlit "{'a': 1} x") = Raise JSONDecodeError /\
  Json.loads [] = Raise JSONDecodeError.
Proof. vm_compute. repeat split; reflexivity. Qed.

(** The reference run on a disk without [inventory.json]: the table
    ends as [{"apple": 7, "banana": 8}], which is what is printed and
    saved. *)
Example main_on_empty_disk :
  let w := snd (main (empty_world (fun _ => Absent true))) in
  fst (main (empty_world (fun _ => Absent true))) = Ret tt /\
  stock_data w = VDict [(lit "apple", VInt 7); (lit "banana", VInt 8)] /\
  stdout w = [[Lit "Apple stock: "; Str (VInt 7)];
              [Lit "Orange stock: "; Str (VInt 0)];
              [Lit "Low items: "; Str (VList [])];
              [Lit (newline ++ "--- Items Report ---")];
              [Lit "  "; Str (VStr (lit "apple")); Lit ": "; Str (VInt 7)];
              [Lit "  "; Str (VStr (lit "banana")); Lit ": "; Str (VInt 8)];
              [Lit ("--------------------" ++ newline)]] /\
  files w default_file
  = Text (jlit "{" ++ [10%N] ++ jlit "    'apple': 7," ++ [10%N]
            ++ jlit "    'banana': 8" ++ [10%N] ++ jlit "}") /\
  map log_level (log w)
  = [WARNING; INFO; INFO; ERROR; WARNING; INFO; WARNING; WARNING; INFO].
Proof. vm_compute. repeat split; reflexivity. Qed.

(** Loading: invalid JSON gives the empty table; a file that is not
    UTF-8 raises [UnicodeDecodeError], which no clause of [load_data]
    takes. *)
Example load_samples :
  fst (load_data default_file (empty_world (fun _ => Text (jlit "{bad"))))
  = Ret (VDict []) /\
  fst (load_data default_file (empty_world (fun _ => Undecodable)))
  = Raise UnicodeDecodeError.
Proof. vm_compute. split; reflexivity. Qed.

(** The scenario of the specification: from the empty table, add 10
    apples and 8 bananas, remove 3 apples; then removing 8 bananas
    deletes their entry. *)
Example reference_scenario :
  let apple := VStr (lit "apple") in
  let banana := VStr (lit "banana") in
  let w := snd ((add_item apple (VInt 10) ;; add_item banana (VInt 8) ;;
                 remove_item apple (VInt 3))
                  (empty_world (fun _ => Absent true))) in
  fst (get_qty apple w) = Ret (VInt 7) /\
  fst (get_qty (VStr (lit "orange")) w) = Ret (VInt 0) /\
  fst (check_low_items 5 w) = Ret (VList []) /\
  stock_data (snd (remove_item banana (VInt 8) w))
  = VDict [(lit "apple", VInt 7)].
Proof. vm_compute. repeat split; reflexivity. Qed.

(* ================================================================= *)
(** ** Dictionaries *)

Lemma dict_get_set_same (d : dict) (k : pystr) (v : pyval) :
  dict_get (dict_set d k v) k = Some v.
Proof.
  induction d as [|[k' v'] d IH]; simpl.
  - destruct (str_eq_dec k k); congruence.
  - destruct (str_eq_dec k k') as [E|E]; simpl.
    + destruct (str_eq_dec k k'); congruence.
    + destruct (str_eq_dec k k'); congruence.
Qed.

Lemma dict_get_set_other (d : dict) (k k' : pystr) (v : pyval) :
  k' <> k -> dict_get (dict_set d k v) k' = dict_get d k'.
Proof.
  intros Hk. induction d as [|[k0 v0] d IH]; simpl.
  - destruct (str_eq_dec k' k); congruence.
  - destruct (str_eq_dec k k0) as [E|E]; simpl.
    + subst k0. destruct (str_eq_dec k' k); congruence.
    + destruct (str_eq_dec k' k0); congruence.
Qed.

Lemma dict_get_del_same (d : dict) (k : pystr) :
  dict_get (dict_del d k) k = None.
Proof.
  induction d as [|[k' v'] d IH]; simpl; auto.
  destruct (str_eq_dec k k') as [E|E]; simpl; auto.
  destruct (str_eq_dec k k'); congruence.
Qed.

Lemma dict_get_del_other (d : dict) (k k' : pystr) :
  k' <> k -> dict_get (dict_del d k) k' = dict_get d k'.
Proof.
  intros Hk. induction d as [|[k0 v0] d IH]; simpl; auto.
  destruct (str_eq_dec k k0) as [E|E]; simpl.
  - subst k0. destruct (str_eq_dec k' k); congruence.
  - destruct (str_eq_dec k' k0); congruence.
Qed.

Lemma forallb_dict_set (P : pyval -> bool) (d : dict) (k : pystr) (v : pyval) :
  forallb (fun kv => P (snd kv)) d = true -> P v = true ->
  forallb (fun kv => P (snd kv)) (dict_set d k v) = true.
Proof.
  intros Hd Hv. induction d as [|[k' v'] d IH]; simpl in *.
  - now rewrite Hv.
  - apply andb_true_iff in Hd as [H1 H2].
    destruct (str_eq_dec k k'); simpl; rewrite ?Hv, ?H1; auto.
Qed.

Lemma forallb_dict_del (P : pyval -> bool) (d : dict) (k : pystr) :
  forallb (fun kv => P (snd kv)) d = true ->
  forallb (fun kv => P (snd kv)) (dict_del d k) = true.
Proof.
  intros Hd. induction d as [|[k' v'] d IH]; simpl in *; auto.
  apply andb_true_iff in Hd as [H1 H2].
  destruct (str_eq_dec k k'); simpl; rewrite ?H1; auto.
Qed.

Lemma dict_get_forallb (P : pyval -> bool) (d : dict) (k : pystr) (v : pyval) :
  forallb (fun kv => P (snd kv)) d = true -> dict_get d k = Some v -> P v = true.
Proof.
  intros Hd Hg. induction d as [|[k' v'] d IH]; simpl in *; try discriminate.
  apply andb_true_iff in Hd as [H1 H2].
  destruct (str_eq_dec k k'); [congruence | auto].
Qed.

Lemma dict_del_set (d : dict) (k : pystr) (v : pyval) :
  dict_del (dict_set d k v) k = dict_del d k.
Proof.
  induction d as [|[k' v'] d IH]; simpl.
  - destruct (str_eq_dec k k); congruence.
  - destruct (str_eq_dec k k') as [E|E]; simpl;
      destruct (str_eq_dec k k'); congruence.
Qed.

(* ================================================================= *)
(** ** Adding and removing *)

Ltac run :=
  unfold bind, ret, lift, logging, print, stock_get, stock_getitem,
    stock_setitem, stock_delitem, stock_items, try_except, set_stock; simpl.

Lemma truthy_name (name : pystr) : name <> [] -> truthy (VStr name) = true.
Proof. destruct name; simpl; congruence. Qed.

(** The three tests at the head of [add_item] and [remove_item], by
    cases on the arguments. *)
Lemma add_item_cases (item qty : pyval) :
  add_item item qty
  = match item, truthy item with
    | VStr name, true =>
        match as_int qty with
        | None =>
            logging ERROR "Invalid quantity: '%s'. Must be an integer." [AVal qty]
        | Some q =>
            if q <? 0 then
              logging WARNING "Invalid quantity: %d. Cannot add negative amount."
                      [AVal qty]
            else
              old <- stock_get name (VInt 0) ;;
              new <- lift (py_add_int old q) ;;
              stock_setitem name new ;;
              total <- stock_getitem name ;;
              logging INFO "Added %d of '%s'. New total: %d"
                      [AVal qty; AVal item; AVal total]
        end
    | _, _ =>
        logging ERROR "Invalid item name: '%s'. Must be non-empty string."
                [AVal item]
    end.
Proof.
  unfold add_item, int_of.
  destruct item as [| | | |[|c name]| |]; try reflexivity.
  destruct qty; reflexivity.
Qed.

Lemma remove_item_cases (item qty : pyval) :
  remove_item item qty
  = match item, truthy item with
    | VStr name, true =>
        match as_int qty with
        | None =>
            logging ERROR "Invalid quantity: '%s'. Must be an integer." [AVal qty]
        | Some q =>
            if q <? 0 then
              logging WARNING "Invalid quantity: %d. Cannot remove negative amount."
                      [AVal qty]
            else
              try_except
                (old <- stock_getitem name ;;
                 new <- lift (py_sub_int old q) ;;
                 stock_setitem name new ;;
                 total <- stock_getitem name ;;
                 logging INFO "Removed %d of '%s'. New total: %d"
                         [AVal qty; AVal item; AVal total] ;;
                 left <- stock_getitem name ;;
                 gone <- lift (py_le_int left 0) ;;
                 if gone then
                   stock_delitem name ;;
                   logging INFO "Item '%s' removed from stock (quantity <= 0)."
                           [AVal item]
                 else ret tt)
                [(is_KeyError,
                  fun _ => logging WARNING "Item '%s' not in stock, cannot remove."
                                   [AVal item])]
        end
    | _, _ =>
        logging ERROR "Invalid item name: '%s'. Must be non-empty string."
                [AVal item]
    end.
Proof.
  unfold remove_item, int_of.
  destruct item as [| | | |[|c name]| |]; try reflexivity.
  destruct qty; reflexivity.
Qed.

Lemma get_qty_cases (item : pyval) :
  get_qty item
  = match item with
    | VStr name => stock_get name (VInt 0)
    | _ =>
        logging ERROR "Invalid item name: '%s'. Must be a string." [AVal item] ;;
        ret (VInt 0)
    end.
Proof. destruct item; reflexivity. Qed.

Lemma py_add_as_int (v : pyval) (n q : Z) :
  as_int v = Some n -> py_add_int v q = Ret (VInt (n + q)).
Proof.
  destruct v as [| [] | | | | |]; cbn [as_int py_add_int];
    intros H; inversion H; reflexivity.
Qed.

Lemma py_sub_as_int (v : pyval) (n q : Z) :
  as_int v = Some n -> py_sub_int v q = Ret (VInt (n - q)).
Proof.
  destruct v as [| [] | | | | |]; cbn [as_int py_sub_int];
    intros H; inversion H; reflexivity.
Qed.

(** C2: for a non-empty string item and an integer qty >= 0, [add_item]
    sets the entry of the item to its previous quantity (0 when the item
    was absent) plus qty, and [get_qty] right afterwards returns that
    sum.  The previous quantity [n] is what [get_qty] returned before the
    call, an integer. *)
Theorem add_then_get_qty (w : world) (name : pystr) (qty prev : pyval) (q n : Z) :
  name <> [] -> as_int qty = Some q -> 0 <= q ->
  fst (get_qty (VStr name) w) = Ret prev -> as_int prev = Some n ->
  fst (add_item (VStr name) qty w) = Ret tt /\
  entry (stock_data (snd (add_item (VStr name) qty w))) name = Some (VInt (n + q)) /\
  fst (get_qty (VStr name) (snd (add_item (VStr name) qty w))) = Ret (VInt (n + q)).
Proof.
  intros Hname Hq Hpos Hget Hprev. destruct w as [t fs lg out].
  rewrite add_item_cases, !get_qty_cases in *. rewrite (truthy_name name Hname), Hq.
  destruct (Z.ltb_spec q 0) as [?|_]; [lia|].
  revert Hget. run. destruct t; simpl; try discriminate.
  intros [= Hold]. rewrite Hold, (py_add_as_int prev n q Hprev). simpl.
  repeat (rewrite dict_get_set_same; simpl). auto.
Qed.

Lemma add_then_get_qty_witness :
  fst (add_item (VStr (lit "apple")) (VInt 3) fruit_world) = Ret tt /\
  entry (stock_data (snd (add_item (VStr (lit "apple")) (VInt 3) fruit_world)))
        (lit "apple") = Some (VInt (7 + 3)) /\
  fst (get_qty (VStr (lit "apple"))
               (snd (add_item (VStr (lit "apple")) (VInt 3) fruit_world)))
  = Ret (VInt (7 + 3)).
Proof.
  apply (add_then_get_qty fruit_world (lit "apple") (VInt 3) (VInt 7) 3 7).
  - discriminate.
  - reflexivity.
  - lia.
  - reflexivity.
  - reflexivity.
Defined.


Lemma present_removal_eq
    (d : dict) fs lg out (name : pystr) (qty old : pyval) (q n : Z) :
  dict_get d name = Some old -> as_int old = Some n ->
  name <> [] -> as_int qty = Some q -> 0 <= q ->
  exists lg',
    remove_item (VStr name) qty (mkWorld (VDict d) fs lg out)
    = (Ret tt,
       mkWorld (VDict (if n - q <=? 0 then dict_del d name
                       else dict_set d name (VInt (n - q)))) fs lg' out).
Proof.
  intros Hold Hn Hname Hq Hpos.
  rewrite remove_item_cases. rewrite (truthy_name name Hname), Hq.
  destruct (Z.ltb_spec q 0) as [?|_]; [lia|].
  run. rewrite Hold, (py_sub_as_int old n q Hn). simpl.
  repeat (rewrite dict_get_set_same; simpl).
  destruct (n - q <=? 0); simpl.
  - repeat (rewrite dict_get_set_same; simpl). rewrite dict_del_set. eauto.
  - eauto.
Qed.

(** C3: for an item present in the table, with integer quantity [n], and
    an integer qty >= 0, [remove_item] lowers the quantity by qty; a
    result <= 0 deletes the entry, so that [get_qty] then returns 0, and
    otherwise the entry stays with the lowered, positive quantity. *)
Theorem remove_present_item
    (w : world) (d : dict) (name : pystr) (qty old : pyval) (q n : Z) :
  stock_data w = VDict d -> dict_get d name = Some old -> as_int old = Some n ->
  name <> [] -> as_int qty = Some q -> 0 <= q ->
  fst (remove_item (VStr name) qty w) = Ret tt /\
  (n - q <= 0 ->
     stock_data (snd (remove_item (VStr name) qty w)) = VDict (dict_del d name) /\
     entry (stock_data (snd (remove_item (VStr name) qty w))) name = None /\
     fst (get_qty (VStr name) (snd (remove_item (VStr name) qty w))) = Ret (VInt 0)) /\
  (0 < n - q ->
     stock_data (snd (remove_item (VStr name) qty w))
       = VDict (dict_set d name (VInt (n - q))) /\
     entry (stock_data (snd (remove_item (VStr name) qty w))) name
       = Some (VInt (n - q))).
Proof.
  intros Ht Hold Hn Hname Hq Hpos. destruct w as [t fs lg out].
  simpl in Ht. subst t.
  destruct (present_removal_eq d fs lg out name qty old q n) as [lg' E]; auto.
  rewrite E. cbn [fst snd stock_data entry].
  destruct (Z.leb_spec (n - q) 0) as [Hle|Hgt].
  - split; [reflexivity|]. split; [intros _|lia].
    rewrite get_qty_cases. unfold stock_get. cbn [fst stock_data].
    rewrite dict_get_del_same. auto.
  - split; [reflexivity|]. split; [lia|intros _].
    rewrite dict_get_set_same. auto.
Qed.

Lemma remove_present_item_witness :
  fst (remove_item (VStr (lit "banana")) (VInt 8) fruit_world) = Ret tt /\
  (8 - 8 <= 0 ->
     stock_data (snd (remove_item (VStr (lit "banana")) (VInt 8) fruit_world))
       = VDict (dict_del [(lit "apple", VInt 7); (lit "banana", VInt 8)] (lit "banana")) /\
     entry (stock_data (snd (remove_item (VStr (lit "banana")) (VInt 8) fruit_world)))
           (lit "banana") = None /\
     fst (get_qty (VStr (lit "banana"))
                  (snd (remove_item (VStr (lit "banana")) (VInt 8) fruit_world)))
       = Ret (VInt 0)) /\
  (0 < 8 - 8 ->
     stock_data (snd (remove_item (VStr (lit "banana")) (VInt 8) fruit_world))
       = VDict (dict_set [(lit "apple", VInt 7); (lit "banana", VInt 8)]
                         (lit "banana") (VInt (8 - 8))) /\
     entry (stock_data (snd (remove_item (VStr (lit "banana")) (VInt 8) fruit_world)))
           (lit "banana") = Some (VInt (8 - 8))).
Proof.
  apply (remove_present_item fruit_world
           [(lit "apple", VInt 7); (lit "banana", VInt 8)]
           (lit "banana") (VInt 8) (VInt 8) 8 8).
  - reflexivity.
  - reflexivity.
  - reflexivity.
  - discriminate.
  - reflexivity.
  - lia.
Defined.


Lemma absent_removal_eq
    (d : dict) fs lg out (name : pystr) (qty : pyval) (q : Z) :
  dict_get d name = None -> name <> [] -> as_int qty = Some q -> 0 <= q ->
  exists lg',
    remove_item (VStr name) qty (mkWorld (VDict d) fs lg out)
    = (Ret tt, mkWorld (VDict d) fs lg' out).
Proof.
  intros Habs Hname Hq Hpos.
  rewrite remove_item_cases. rewrite (truthy_name name Hname), Hq.
  destruct (Z.ltb_spec q 0) as [?|_]; [lia|].
  run. rewrite Habs. simpl. eauto.
Qed.

(** C4: for a non-empty string item that is not in the table and an
    integer qty >= 0, [remove_item] changes nothing but the log, where it
    leaves a warning, and raises nothing. *)
Theorem remove_absent_item
    (w : world) (d : dict) (name : pystr) (qty : pyval) (q : Z) :
  stock_data w = VDict d -> dict_get d name = None ->
  name <> [] -> as_int qty = Some q -> 0 <= q ->
  fst (remove_item (VStr name) qty w) = Ret tt /\
  same_state w (snd (remove_item (VStr name) qty w)) /\
  log (snd (remove_item (VStr name) qty w))
    = log w ++ [mkLog WARNING "Item '%s' not in stock, cannot remove."
                      [AVal (VStr name)]].
Proof.
  intros Ht Habs Hname Hq Hpos. destruct w as [t fs lg out].
  simpl in Ht. subst t.
  rewrite remove_item_cases. unfold same_state. rewrite (truthy_name name Hname), Hq.
  destruct (Z.ltb_spec q 0) as [?|_]; [lia|].
  run. rewrite Habs. simpl. auto.
Qed.

Lemma remove_absent_item_witness :
  fst (remove_item (VStr (lit "orange")) (VInt 1) fruit_world) = Ret tt /\
  same_state fruit_world (snd (remove_item (VStr (lit "orange")) (VInt 1) fruit_world)) /\
  log (snd (remove_item (VStr (lit "orange")) (VInt 1) fruit_world))
    = log fruit_world ++ [mkLog WARNING "Item '%s' not in stock, cannot remove."
                                [AVal (VStr (lit "orange"))]].
Proof.
  apply (remove_absent_item fruit_world
           [(lit "apple", VInt 7); (lit "banana", VInt 8)]
           (lit "orange") (VInt 1) 1).
  - reflexivity.
  - reflexivity.
  - discriminate.
  - reflexivity.
  - lia.
Defined.


(** C5: when the item is not a string or is empty, or the qty is not an
    integer, or the qty is negative, [add_item] and [remove_item] both
    leave the table (and the files) as they are and raise nothing. *)
Theorem invalid_input_is_ignored (w : world) (item qty : pyval) :
  isinstance_str item = false \/ item = VStr [] \/
  isinstance_int qty = false \/ (exists q, as_int qty = Some q /\ q < 0) ->
  (fst (add_item item qty w) = Ret tt /\ same_state w (snd (add_item item qty w))) /\
  (fst (remove_item item qty w) = Ret tt /\
   same_state w (snd (remove_item item qty w))).
Proof.
  intros H. rewrite add_item_cases, remove_item_cases. unfold same_state.
  destruct item as [| | | |name| |];
    try (run; auto; fail).
  destruct name as [|c name]; [run; auto; fail|].
  simpl truthy. cbv iota.
  destruct H as [H|[H|[H|[q [Hq Hneg]]]]]; try discriminate.
  - destruct qty; try discriminate; run; auto.
  - rewrite Hq. destruct (Z.ltb_spec q 0); [|lia]. run; auto.
Qed.

Lemma invalid_input_is_ignored_witness :
  (fst (add_item (VInt 123) (VStr (lit "ten")) fruit_world) = Ret tt /\
   same_state fruit_world (snd (add_item (VInt 123) (VStr (lit "ten")) fruit_world))) /\
  (fst (remove_item (VInt 123) (VStr (lit "ten")) fruit_world) = Ret tt /\
   same_state fruit_world (snd (remove_item (VInt 123) (VStr (lit "ten")) fruit_world))).
Proof.
  apply (invalid_input_is_ignored fruit_world (VInt 123) (VStr (lit "ten"))).
  left. reflexivity.
Defined.


Lemma low_items_spec (d : dict) (threshold : Z) (found : list pyval) :
  forallb (fun kv => isinstance_int (snd kv)) d = true ->
  low_items d threshold found = Ret (found ++ low_names d threshold).
Proof.
  revert found. induction d as [|[k v] d IH]; intros found Hd; simpl in *.
  - now rewrite List.app_nil_r.
  - apply andb_true_iff in Hd as [Hv Hd]. unfold low_names. simpl.
    destruct v as [| b | z | | | |]; try discriminate; simpl.
    + destruct b; simpl; destruct (_ <=? threshold); simpl;
        rewrite IH by assumption; unfold low_names;
        rewrite <- ?List.app_assoc; reflexivity.
    + destruct (z <=? threshold); simpl;
        rewrite IH by assumption; unfold low_names;
        rewrite <- ?List.app_assoc; reflexivity.
Qed.

Lemma invariant_values_are_ints (d : dict) :
  invariant (VDict d) = true ->
  forallb (fun kv => isinstance_int (snd kv)) d = true.
Proof.
  simpl. induction d as [|[k v] d IH]; simpl; auto.
  intros H. apply andb_true_iff in H as [Hv Hd].
  destruct v; try discriminate. simpl. auto.
Qed.

Lemma low_names_nonpositive_threshold (d : dict) (threshold : Z) :
  invariant (VDict d) = true -> threshold <= 0 -> low_names d threshold = [].
Proof.
  unfold low_names. simpl. induction d as [|[k v] d IH]; simpl; auto.
  intros H Hth. apply andb_true_iff in H as [Hv Hd].
  destruct v; try discriminate. simpl in *.
  apply Z.ltb_lt in Hv. destruct (Z.leb_spec z threshold); [lia|]. auto.
Qed.

(** C6: on a table of integer quantities [check_low_items] returns, in
    table order, exactly the names whose quantity is <= the threshold, and
    leaves the world as it was; with a threshold <= 0 (every negative
    one, and 0) the result is empty when the table satisfies the
    positive-quantity invariant. *)
Theorem check_low_items_spec (w : world) (d : dict) (threshold : Z) :
  stock_data w = VDict d ->
  forallb (fun kv => isinstance_int (snd kv)) d = true ->
  check_low_items threshold w = (Ret (VList (low_names d threshold)), w) /\
  (invariant (VDict d) = true -> threshold <= 0 ->
   check_low_items threshold w = (Ret (VList []), w)).
Proof.
  intros Ht Hd.
  assert (E : check_low_items threshold w = (Ret (VList (low_names d threshold)), w)).
  { destruct w as [t fs lg out]. simpl in Ht. subst t.
    unfold check_low_items. run.
    rewrite (low_items_spec d threshold [] Hd). reflexivity. }
  split; [exact E|]. intros Hinv Hth.
  rewrite E, (low_names_nonpositive_threshold d threshold Hinv Hth). reflexivity.
Qed.

Lemma check_low_items_spec_witness :
  check_low_items 7 fruit_world
    = (Ret (VList (low_names [(lit "apple", VInt 7); (lit "banana", VInt 8)] 7)),
       fruit_world) /\
  (invariant (VDict [(lit "apple", VInt 7); (lit "banana", VInt 8)]) = true ->
   7 <= 0 -> check_low_items 7 fruit_world = (Ret (VList []), fruit_world)).
Proof.
  apply (check_low_items_spec fruit_world
           [(lit "apple", VInt 7); (lit "banana", VInt 8)] 7).
  - reflexivity.
  - reflexivity.
Defined.


(** C9: whatever the arguments, [add_item] and [remove_item] leave every
    entry under a key other than the item as it was: it is there
    afterwards exactly when it was there before, with the same value. *)
Theorem other_entries_untouched (w : world) (item qty : pyval) (k : pystr) :
  item <> VStr k ->
  entry (stock_data (snd (add_item item qty w))) k = entry (stock_data w) k /\
  entry (stock_data (snd (remove_item item qty w))) k = entry (stock_data w) k.
Proof.
  intros Hk. destruct w as [t fs lg out]. rewrite add_item_cases, remove_item_cases.
  destruct item as [| | | |name| |]; try (run; auto; fail).
  assert (Hne : k <> name) by congruence.
  destruct (truthy (VStr name)); [|run; auto; fail].
  destruct (as_int qty) as [q|]; [|run; auto; fail].
  destruct (q <? 0); [run; auto; fail|].
  destruct t as [| | | | | |d]; try (run; auto; fail).
  split.
  - run. destruct (py_add_int _ q) as [new|e]; simpl; auto.
    repeat (rewrite dict_get_set_same; simpl).
    apply dict_get_set_other; assumption.
  - run. destruct (dict_get d name) as [old|]; simpl; auto.
    destruct (py_sub_int old q) as [new|e]; simpl.
    + repeat (rewrite dict_get_set_same; simpl).
      destruct (py_le_int new 0) as [[|]|e]; simpl.
      * repeat (rewrite dict_get_set_same; simpl).
        rewrite dict_get_del_other, dict_get_set_other; auto.
      * apply dict_get_set_other; assumption.
      * destruct e; simpl; apply dict_get_set_other; assumption.
    + destruct e; simpl; auto.
Qed.

Lemma other_entries_untouched_witness :
  entry (stock_data (snd (add_item (VStr (lit "apple")) (VInt 3) fruit_world)))
        (lit "banana") = entry (stock_data fruit_world) (lit "banana") /\
  entry (stock_data (snd (remove_item (VStr (lit "apple")) (VInt 3) fruit_world)))
        (lit "banana") = entry (stock_data fruit_world) (lit "banana").
Proof.
  apply (other_entries_untouched fruit_world (VStr (lit "apple")) (VInt 3)
                                 (lit "banana")).
  discriminate.
Defined.


(* ================================================================= *)
(** ** Loading *)

Lemma load_data_decoded (w : world) (path text : pystr) (v : pyval) :
  fst (read_text path w) = Ret text -> Json.loads text = Ret v ->
  fst (load_data path w) = Ret v /\ same_state w (snd (load_data path w)).
Proof.
  destruct w as [t fs lg out]. unfold load_data, read_text, same_state.
  run. destruct (fs path); simpl; try discriminate.
  intros [= ->] ->. simpl. auto.
Qed.




(** C10: when the file is read and [json.loads] accepts its text,
    [load_data] returns the decoded value itself, whatever it is; a JSON
    array is returned as a list, and an object with a zero, a negative, a
    fractional and a textual value is returned as it stands, outside the
    invariant of the table. *)
Theorem load_returns_decoded_value :
  (forall (w : world) (path text : pystr) (v : pyval),
      fst (read_text path w) = Ret text -> Json.loads text = Ret v ->
      fst (load_data path w) = Ret v /\ same_state w (snd (load_data path w))) /\
  Json.loads (jlit "[1, 2]") = Ret (VList [VInt 1; VInt 2]) /\
  Json.loads (jlit "{'a': 0, 'b': -3, 'c': 1.5, 'd': 'x'}")
    = Ret (VDict [(lit "a", VInt 0); (lit "b", VInt (-3));
                  (lit "c", VFloat (S754_finite false 6755399441055744 (-52)));
                  (lit "d", VStr (lit "x"))]) /\
  invariant (VList [VInt 1; VInt 2]) = false /\
  invariant (VDict [(lit "a", VInt 0); (lit "b", VInt (-3));
                    (lit "c", VFloat (S754_finite false 6755399441055744 (-52)));
                    (lit "d", VStr (lit "x"))]) = false.
Proof.
  split; [exact load_data_decoded|].
  repeat split; vm_compute; reflexivity.
Qed.

Lemma load_returns_decoded_value_witness :
  let w := empty_world (fun _ => Text (jlit "[1, 2]")) in
  fst (load_data default_file w) = Ret (VList [VInt 1; VInt 2]) /\
  same_state w (snd (load_data default_file w)).
Proof.
  apply (proj1 load_returns_decoded_value
           (empty_world (fun _ => Text (jlit "[1, 2]"))) default_file
           (jlit "[1, 2]") (VList [VInt 1; VInt 2]));
    vm_compute; reflexivity.
Defined.

(* ================================================================= *)
(** ** The invariant of the table *)

Lemma get_qty_keeps_table (item : pyval) (w : world) :
  stock_data (snd (get_qty item w)) = stock_data w.
Proof.
  destruct w as [t fs lg out]. rewrite get_qty_cases.
  destruct item; run; auto. destruct t; auto.
Qed.

Lemma check_low_items_keeps_table (threshold : Z) (w : world) :
  stock_data (snd (check_low_items threshold w)) = stock_data w.
Proof.
  destruct w as [t fs lg out]. unfold check_low_items. run.
  destruct t; auto. destruct (low_items d threshold []); auto.
Qed.

Lemma print_items_keeps_table (items : dict) (w : world) :
  stock_data (snd (print_items items w)) = stock_data w /\
  fst (print_items items w) = Ret tt.
Proof.
  revert w. induction items as [|[k v] items IH]; intros w; simpl; auto.
  unfold bind at 1. unfold print at 1. simpl.
  match goal with |- context [print_items items ?w'] =>
    destruct (IH w') as [E1 E2] end.
  split; [rewrite E1; reflexivity | assumption].
Qed.

Lemma print_data_keeps_table (w : world) :
  stock_data (snd (print_data w)) = stock_data w.
Proof.
  destruct w as [t fs lg out]. unfold print_data. run.
  destruct (truthy t); simpl; auto.
  destruct t; simpl; auto.
  match goal with |- context [print_items d ?w'] =>
    destruct (print_items_keeps_table d w') as [E1 E2];
    destruct (print_items d w') as [r w''] end.
  simpl in *. subst r. simpl. assumption.
Qed.

Lemma save_data_keeps_table (path : pystr) (w : world) :
  stock_data (snd (save_data path w)) = stock_data w.
Proof.
  destruct w as [t fs lg out]. unfold save_data, open_write, write_text, set_file.
  run. destruct (fs path) as [[|]| | |]; simpl; auto.
Qed.

Lemma load_data_keeps_table (path : pystr) (w : world) :
  stock_data (snd (load_data path w)) = stock_data w.
Proof.
  destruct w as [t fs lg out]. unfold load_data, read_text. run.
  destruct (fs path); simpl; auto.
  destruct (Json.loads _) as [v|e]; simpl; auto.
  destruct e; simpl; auto.
Qed.

Lemma invariant_entry (d : dict) (k : pystr) (v : pyval) :
  invariant (VDict d) = true -> dict_get d k = Some v ->
  exists n, v = VInt n /\ 0 < n.
Proof.
  intros Hinv Hget.
  pose proof (dict_get_forallb is_positive_int d k v Hinv Hget) as Hv.
  destruct v; try discriminate. simpl in Hv. apply Z.ltb_lt in Hv. eauto.
Qed.

Lemma add_item_keeps_invariant (item qty : pyval) (w : world) :
  invariant (stock_data w) = true -> as_int qty <> Some 0 ->
  invariant (stock_data (snd (add_item item qty w))) = true.
Proof.
  intros Hinv Hq. destruct w as [t fs lg out]. simpl in Hinv.
  rewrite add_item_cases.
  destruct item as [| | | |name| |]; try (run; auto; fail).
  destruct (truthy (VStr name)); [|run; auto; fail].
  destruct (as_int qty) as [q|]; [|run; auto; fail].
  destruct (Z.ltb_spec q 0) as [?|Hpos]; [run; auto; fail|].
  assert (0 < q) by (assert (q <> 0) by congruence; lia).
  destruct t as [| | | | | |d]; try discriminate.
  run. destruct (dict_get d name) as [old|] eqn:Hold; simpl.
  - destruct (invariant_entry d name old Hinv Hold) as [n [-> Hn]]. simpl.
    repeat (rewrite dict_get_set_same; simpl).
    apply forallb_dict_set; [assumption|]. simpl. apply Z.ltb_lt. lia.
  - repeat (rewrite dict_get_set_same; simpl).
    apply forallb_dict_set; [assumption|]. simpl. apply Z.ltb_lt. lia.
Qed.

Lemma remove_item_keeps_invariant (item qty : pyval) (w : world) :
  invariant (stock_data w) = true ->
  invariant (stock_data (snd (remove_item item qty w))) = true.
Proof.
  intros Hinv. destruct w as [t fs lg out]. simpl in Hinv.
  destruct item as [| | | |name| |]; try (rewrite remove_item_cases; run; auto; fail).
  destruct (truthy (VStr name)) eqn:Htr;
    [|rewrite remove_item_cases, Htr; run; auto; fail].
  destruct (as_int qty) as [q|] eqn:Hq;
    [|rewrite remove_item_cases, Htr, Hq; run; auto; fail].
  destruct (Z.ltb_spec q 0) as [Hneg|Hpos].
  { rewrite remove_item_cases, Htr, Hq.
    destruct (Z.ltb_spec q 0); [run; auto|lia]. }
  destruct t as [| | | | | |d]; try discriminate.
  assert (Hname : name <> []) by (destruct name; simpl in Htr; congruence).
  destruct (dict_get d name) as [old|] eqn:Hold.
  - destruct (invariant_entry d name old Hinv Hold) as [n [-> Hn]].
    destruct (present_removal_eq d fs lg out name qty (VInt n) q n)
      as [lg' E]; auto.
    rewrite E. cbn [snd stock_data invariant].
    destruct (n - q <=? 0) eqn:Hle.
    + apply forallb_dict_del. assumption.
    + apply forallb_dict_set; [assumption|]. simpl.
      apply Z.leb_gt in Hle. apply Z.ltb_lt. lia.
  - destruct (absent_removal_eq d fs lg out name qty q) as [lg' E]; auto.
    rewrite E. assumption.
Qed.

(** C1, as stated, fails: from the empty table, [add_item("pear", 0)]
    leaves the entry [pear: 0], and a successful load of a file holding
    [{"pear": 0}] installs that table; both break the invariant. *)
Lemma invariant_broken_by_add_zero_and_by_load :
  invariant (stock_data pear_world) = true /\
  fst (run_op (Add (VStr (lit "pear")) (VInt 0)) pear_world) = Ret tt /\
  stock_data (snd (run_op (Add (VStr (lit "pear")) (VInt 0)) pear_world))
    = VDict [(lit "pear", VInt 0)] /\
  invariant (stock_data (snd (run_op (Add (VStr (lit "pear")) (VInt 0)) pear_world)))
    = false /\
  fst (run_op (Load (lit "inventory.json")) pear_world) = Ret tt /\
  stock_data (snd (run_op (Load (lit "inventory.json")) pear_world))
    = VDict [(lit "pear", VInt 0)] /\
  invariant (stock_data (snd (run_op (Load (lit "inventory.json")) pear_world)))
    = false.
Proof. vm_compute. repeat split; reflexivity. Qed.

(** C1, amended: the empty table satisfies the invariant (a dictionary
    whose values are all positive integers), and every operation keeps
    it, except an add of quantity 0 and a load whose file decodes to a
    value outside the invariant: [remove_item], [save_data], [get_qty],
    [check_low_items] and [print_data] always, [add_item] whenever the
    quantity is not 0, and the load whenever [load_data] returns a value
    inside the invariant or raises. *)
Theorem invariant_preserved :
  invariant (VDict []) = true /\
  forall (o : op) (w : world),
    invariant (stock_data w) = true -> admissible o w = true ->
    invariant (stock_data (snd (run_op o w))) = true.
Proof.
  split; [reflexivity|]. intros o w Hinv Hadm.
  destruct o as [item qty|item qty|item|threshold| |path|path]; simpl in *.
  - apply add_item_keeps_invariant; [assumption|].
    destruct (as_int qty) as [[| |]|]; congruence.
  - apply remove_item_keeps_invariant; assumption.
  - unfold bind, ret. pose proof (get_qty_keeps_table item w) as E.
    destruct (get_qty item w) as [[v|e] w']; simpl in *; congruence.
  - unfold bind, ret. pose proof (check_low_items_keeps_table threshold w) as E.
    destruct (check_low_items threshold w) as [[v|e] w']; simpl in *; congruence.
  - rewrite print_data_keeps_table. assumption.
  - rewrite save_data_keeps_table. assumption.
  - unfold bind. pose proof (load_data_keeps_table path w) as E.
    destruct (load_data path w) as [[v|e] w']; simpl in *; congruence.
Qed.

Lemma invariant_preserved_witness :
  invariant (stock_data (empty_world (fun _ => Absent true))) = true /\
  admissible (Add (VStr (lit "apple")) (VInt 10)) (empty_world (fun _ => Absent true))
    = true /\
  invariant (stock_data (snd (run_op (Add (VStr (lit "apple")) (VInt 10))
                                     (empty_world (fun _ => Absent true))))) = true.
Proof.
  split; [reflexivity|]. split; [reflexivity|].
  apply (proj2 invariant_preserved); reflexivity.
Defined.

(* ================================================================= *)
(** ** The JSON round trip: strings *)

Local Open Scope N_scope.

(** Quotients and remainders become plain unknowns, for [lia]. *)
Ltac forget_divmod :=
  repeat match goal with
  | |- context [N.div ?a ?b] =>
      let x := fresh "q" in set (x := N.div a b) in *; clearbody x
  | |- context [N.modulo ?a ?b] =>
      let x := fresh "r" in set (x := N.modulo a b) in *; clearbody x
  | H : context [N.div ?a ?b] |- _ =>
      let x := fresh "q" in set (x := N.div a b) in *; clearbody x
  | H : context [N.modulo ?a ?b] |- _ =>
      let x := fresh "r" in set (x := N.modulo a b) in *; clearbody x
  end.

Lemma hex_value_digit (d : N) : d < 16 -> Json.hex_value (Json.hex_digit d) = Some d.
Proof.
  intros Hd. unfold Json.hex_value, Json.hex_digit, Json.is_digit.
  destruct (N.ltb_spec d 10).
  - replace ((48 <=? 48 + d) && (48 + d <=? 57))%bool with true.
    + f_equal. lia.
    + symmetry. apply andb_true_iff. split; apply N.leb_le; lia.
  - replace ((48 <=? 87 + d) && (87 + d <=? 57))%bool with false.
    + replace ((97 <=? 87 + d) && (87 + d <=? 102))%bool with true.
      * f_equal. lia.
      * symmetry. apply andb_true_iff. split; apply N.leb_le; lia.
    + symmetry. apply andb_false_iff. right. apply N.leb_gt. lia.
Qed.

Lemma nibbles (c : N) :
  c < 0x10000 ->
  let x := N.shiftr c 12 in
  let y := N.land (N.shiftr c 8) 15 in
  let z := N.land (N.shiftr c 4) 15 in
  let w := N.land c 15 in
  x < 16 /\ y < 16 /\ z < 16 /\ w < 16 /\ ((x * 16 + y) * 16 + z) * 16 + w = c.
Proof.
  intros Hc. cbv zeta.
  change 15 with (N.ones 4). rewrite !N.land_ones, !N.shiftr_div_pow2.
  change (2 ^ 12) with 4096. change (2 ^ 8) with 256.
  change (2 ^ 4) with 16.
  replace (c / 4096) with (c / 16 / 16 / 16)
    by (rewrite !N.Div0.div_div; reflexivity).
  replace (c / 256) with (c / 16 / 16)
    by (rewrite !N.Div0.div_div; reflexivity).
  pose proof (N.div_mod' c 16). pose proof (N.mod_lt c 16).
  pose proof (N.div_mod' (c / 16) 16). pose proof (N.mod_lt (c / 16) 16).
  pose proof (N.div_mod' (c / 16 / 16) 16).
  pose proof (N.mod_lt (c / 16 / 16) 16).
  forget_divmod. lia.
Qed.

Lemma hex4_u_escape (c : N) (t : pystr) :
  c < 0x10000 ->
  exists h1 h2 h3 h4,
    Json.u_escape c ++ t = 92 :: 117 :: h1 :: h2 :: h3 :: h4 :: t /\
    Json.hex4 h1 h2 h3 h4 = Some c.
Proof.
  intros Hc. destruct (nibbles c Hc) as (Hx & Hy & Hz & Hw & E).
  unfold Json.u_escape. do 4 eexists. split; [reflexivity|].
  unfold Json.hex4. rewrite !hex_value_digit by assumption.
  f_equal. exact E.
Qed.

Lemma lor_shifted (x y : N) (n : N) :
  y < 2 ^ n -> N.lor (N.shiftl x n) y = x * 2 ^ n + y.
Proof.
  intros Hy. rewrite <- N.shiftl_mul_pow2.
  rewrite N.add_nocarry_lxor; [rewrite N.lxor_lor; [reflexivity|]|];
    apply N.bits_inj_0; intros i; rewrite N.land_spec;
    destruct (N.lt_ge_cases i n) as [Hi|Hi].
  - rewrite (N.shiftl_spec_low x n i Hi). reflexivity.
  - destruct (N.eq_dec y 0) as [->|Hy0]; [rewrite N.bits_0; apply andb_false_r|].
    rewrite (N.bits_above_log2 y i); [apply andb_false_r|].
    apply N.lt_le_trans with n; [|assumption].
    apply N.log2_lt_pow2; [lia | assumption].
  - rewrite (N.shiftl_spec_low x n i Hi). reflexivity.
  - destruct (N.eq_dec y 0) as [->|Hy0]; [rewrite N.bits_0; apply andb_false_r|].
    rewrite (N.bits_above_log2 y i); [apply andb_false_r|].
    apply N.lt_le_trans with n; [|assumption].
    apply N.log2_lt_pow2; [lia | assumption].
Qed.

Lemma surrogate_pair (c : N) :
  0x10000 <= c < 0x110000 ->
  let n := c - 0x10000 in
  let hi := N.lor 0xd800 (N.land (N.shiftr n 10) 0x3ff) in
  let lo := N.lor 0xdc00 (N.land n 0x3ff) in
  hi < 0x10000 /\ lo < 0x10000 /\
  Json.is_high_surrogate hi = true /\ Json.is_low_surrogate lo = true /\
  Json.join_surrogates hi lo = c.
Proof.
  intros Hc. cbv zeta.
  change 0x3ff with (N.ones 10). rewrite !N.land_ones, N.shiftr_div_pow2.
  change 0xd800 with (N.shiftl 54 10). change 0xdc00 with (N.shiftl 55 10).
  change (2 ^ 10) with 1024.
  set (n := c - 0x10000).
  assert (Hn : n < 1048576) by (unfold n; lia).
  assert (Hx : (n / 1024) mod 1024 < 1024) by (apply N.mod_lt; discriminate).
  assert (Hy : n mod 1024 < 1024) by (apply N.mod_lt; discriminate).
  assert (En : (n / 1024) mod 1024 * 1024 + n mod 1024 = n).
  { pose proof (N.div_mod' n 1024). pose proof (N.div_mod' (n / 1024) 1024).
    pose proof (N.mod_lt (n / 1024 / 1024) 1024).
    assert (n / 1024 / 1024 = 0).
    { rewrite N.Div0.div_div. apply N.div_small. exact Hn. }
    forget_divmod. lia. }
  set (x := (n / 1024) mod 1024) in *. set (y := n mod 1024) in *.
  clearbody x y.
  rewrite !(lor_shifted _ _ 10) by assumption. change (2 ^ 10) with 1024.
  unfold Json.is_high_surrogate, Json.is_low_surrogate, Json.join_surrogates.
  replace (54 * 1024 + x - 0xd800) with x by lia.
  replace (55 * 1024 + y - 0xdc00) with y by lia.
  rewrite (lor_shifted _ _ 10) by assumption. change (2 ^ 10) with 1024.
  repeat split.
  - lia.
  - lia.
  - apply andb_true_iff. split; apply N.leb_le; lia.
  - apply andb_true_iff. split; apply N.leb_le; lia.
  - rewrite En. unfold n. lia.
Qed.

Lemma scanstring_u_escape (h1 h2 h3 h4 uni : N) (t acc : pystr) :
  Json.hex4 h1 h2 h3 h4 = Some uni ->
  (Json.is_high_surrogate uni = true -> starts_low_escape t = false) ->
  Json.scanstring (92 :: 117 :: h1 :: h2 :: h3 :: h4 :: t) acc
  = Json.scanstring t (uni :: acc).
Proof.
  intros Hhex Hlow. cbn [Json.scanstring N.eqb Pos.eqb]. rewrite Hhex.
  destruct (Json.is_high_surrogate uni); [|reflexivity].
  specialize (Hlow eq_refl).
  destruct t as [|b [|u [|l1 [|l2 [|l3 [|l4 t]]]]]]; try reflexivity.
  cbn [starts_low_escape] in Hlow.
  destruct ((b =? 92) && (u =? 117))%bool; [|reflexivity].
  cbn [andb] in Hlow.
  destruct (Json.hex4 l1 l2 l3 l4); [|discriminate].
  rewrite Hlow. reflexivity.
Qed.

Lemma scanstring_surrogate_pair (h1 h2 h3 h4 l1 l2 l3 l4 hi lo : N) (t acc : pystr) :
  Json.hex4 h1 h2 h3 h4 = Some hi -> Json.is_high_surrogate hi = true ->
  Json.hex4 l1 l2 l3 l4 = Some lo -> Json.is_low_surrogate lo = true ->
  Json.scanstring (92 :: 117 :: h1 :: h2 :: h3 :: h4 ::
                   92 :: 117 :: l1 :: l2 :: l3 :: l4 :: t) acc
  = Json.scanstring t (Json.join_surrogates hi lo :: acc).
Proof.
  intros H1 H2 H3 H4. cbn [Json.scanstring N.eqb Pos.eqb andb].
  rewrite H1, H2, H3, H4. reflexivity.
Qed.

(** The text an escaped character starts with is no low-surrogate escape
    unless the character is a low surrogate. *)
Lemma escape_char_starts (c : N) (t : pystr) :
  c < 0x110000 -> Json.is_low_surrogate c = false ->
  starts_low_escape (Json.escape_char c ++ t) = false.
Proof.
  intros Hc Hlow. unfold Json.escape_char.
  repeat match goal with
  | |- context [N.eqb c ?k] =>
      destruct (N.eqb_spec c k);
      [destruct t as [|? [|? [|? [|? ?]]]]; reflexivity|]
  end.
  destruct ((32 <=? c) && (c <=? 126))%bool eqn:Hprint.
  - assert (E : (c =? 92) = false) by (apply N.eqb_neq; assumption).
    destruct t as [|? [|? [|? [|? [|? ?]]]]]; try reflexivity.
    cbn [app starts_low_escape]. rewrite E. reflexivity.
  - destruct (N.ltb_spec c 0x10000) as [Hbmp|Hastral].
    + destruct (hex4_u_escape c t Hbmp) as (h1 & h2 & h3 & h4 & E & Hhex).
      rewrite E. cbn [starts_low_escape N.eqb Pos.eqb andb].
      rewrite Hhex. exact Hlow.
    + destruct (surrogate_pair c (conj Hastral Hc)) as (Hhi & _ & Hhigh & _ & _).
      rewrite <- List.app_assoc.
      match goal with |- context [Json.u_escape ?hi ++ ?r] =>
        destruct (hex4_u_escape hi r Hhi) as (h1 & h2 & h3 & h4 & E & Hhex);
        rewrite E end.
      cbn [starts_low_escape N.eqb Pos.eqb andb]. rewrite Hhex.
      revert Hhigh. unfold Json.is_high_surrogate, Json.is_low_surrogate.
      intros Hhigh. apply andb_true_iff in Hhigh as [_ Hle%N.leb_le].
      apply andb_false_iff. left. apply N.leb_gt. lia.
Qed.

Lemma scanstring_escape_char (c : N) (t acc : pystr) :
  c < 0x110000 ->
  (Json.is_high_surrogate c = true -> starts_low_escape t = false) ->
  Json.scanstring (Json.escape_char c ++ t) acc = Json.scanstring t (c :: acc).
Proof.
  intros Hc Hnext. unfold Json.escape_char.
  destruct (N.eqb_spec c 34) as [->|N34]; [reflexivity|].
  destruct (N.eqb_spec c 92) as [->|N92]; [reflexivity|].
  destruct (N.eqb_spec c 10) as [->|N10]; [reflexivity|].
  destruct (N.eqb_spec c 13) as [->|N13]; [reflexivity|].
  destruct (N.eqb_spec c 9) as [->|N9]; [reflexivity|].
  destruct (N.eqb_spec c 8) as [->|N8]; [reflexivity|].
  destruct (N.eqb_spec c 12) as [->|N12]; [reflexivity|].
  destruct ((32 <=? c) && (c <=? 126))%bool eqn:Hprint.
  - apply andb_true_iff in Hprint as [Hlo%N.leb_le Hhi%N.leb_le].
    cbn [app Json.scanstring].
    rewrite (proj2 (N.eqb_neq c 34) N34), (proj2 (N.eqb_neq c 92) N92).
    destruct (N.ltb_spec c 32); [lia|reflexivity].
  - destruct (N.ltb_spec c 0x10000) as [Hbmp|Hastral].
    + destruct (hex4_u_escape c t Hbmp) as (h1 & h2 & h3 & h4 & E & Hhex).
      rewrite E. apply scanstring_u_escape; assumption.
    + destruct (surrogate_pair c (conj Hastral Hc))
        as (Hhi & Hlo & Hhigh & Hlow & Hjoin).
      rewrite <- List.app_assoc.
      match goal with |- context [Json.u_escape ?lo ++ t] =>
        destruct (hex4_u_escape lo t Hlo) as (l1 & l2 & l3 & l4 & El & Hl);
        rewrite El end.
      match goal with |- context [Json.u_escape ?hi ++ ?r] =>
        destruct (hex4_u_escape hi r Hhi) as (h1 & h2 & h3 & h4 & Eh & Hh);
        rewrite Eh end.
      rewrite (scanstring_surrogate_pair _ _ _ _ _ _ _ _ _ _ t acc Hh Hhigh Hl Hlow).
      rewrite Hjoin. reflexivity.
Qed.

Lemma high_is_not_low (c : N) :
  Json.is_high_surrogate c = true -> Json.is_low_surrogate c = false.
Proof.
  unfold Json.is_high_surrogate, Json.is_low_surrogate.
  intros H. apply andb_true_iff in H as [_ Hle%N.leb_le].
  apply andb_false_iff. left. apply N.leb_gt. lia.
Qed.

(** [scanstring] reads an escaped string back, up to the text that
    follows it. *)
Lemma scanstring_escaped (s t acc : pystr) :
  valid_str s -> no_surrogate_pair s = true -> starts_low_escape t = false ->
  Json.scanstring (flat_map Json.escape_char s ++ t) acc
  = Json.scanstring t (rev s ++ acc).
Proof.
  intros Hvalid. revert acc.
  induction Hvalid as [|c s Hc Hs IH]; intros acc Hpair Ht; [reflexivity|].
  cbn [flat_map]. rewrite <- List.app_assoc.
  rewrite scanstring_escape_char; [| exact Hc |].
  - rewrite IH; [| |exact Ht].
    + cbn [rev]. rewrite <- List.app_assoc. reflexivity.
    + destruct s; [reflexivity|]. cbn [no_surrogate_pair] in Hpair.
      apply andb_true_iff in Hpair as [_ H]. exact H.
  - intros Hhigh. destruct s as [|c' s]; [exact Ht|].
    cbn [flat_map]. rewrite <- List.app_assoc.
    apply escape_char_starts.
    + inversion Hs; assumption.
    + cbn [no_surrogate_pair] in Hpair.
      apply andb_true_iff in Hpair as [H _]. rewrite Hhigh in H.
      cbn [andb] in H. destruct (Json.is_low_surrogate c'); [discriminate|reflexivity].
Qed.

(** A quoted string is read back by [scanstring], started after the
    opening quote. *)
Lemma scanstring_encode_str (s t : pystr) :
  valid_str s -> no_surrogate_pair s = true ->
  exists body,
    Json.encode_str s ++ t = 34 :: body /\
    Json.scanstring body [] = Json.Scanned s t.
Proof.
  intros Hvalid Hpair. unfold Json.encode_str.
  exists (flat_map Json.escape_char s ++ 34 :: t). split.
  - cbn [app]. rewrite <- List.app_assoc. reflexivity.
  - rewrite scanstring_escaped; [| assumption | assumption |].
    + cbn [Json.scanstring N.eqb Pos.eqb]. rewrite List.app_nil_r, rev_involutive.
      reflexivity.
    + destruct t as [|? [|? [|? [|? [|? ?]]]]]; reflexivity.
Qed.

(* ================================================================= *)
(** ** The JSON round trip: integers *)

Lemma ends_number_cases (c : N) (t : pystr) :
  ends_number (c :: t) = true ->
  Json.is_digit c = false /\ (c =? 46) = false /\
  (c =? 101) = false /\ (c =? 69) = false.
Proof.
  cbn [ends_number]. intros H. apply negb_true_iff in H.
  repeat (apply orb_false_iff in H as [H ?]). auto.
Qed.

Lemma span_digits_stop (t : pystr) :
  ends_number t = true -> Json.span_digits t = ([], t).
Proof.
  destruct t as [|c t]; [reflexivity|]. intros H.
  destruct (ends_number_cases c t H) as (Hd & _). cbn [Json.span_digits].
  rewrite Hd. reflexivity.
Qed.

Lemma span_digits_uint (d : Decimal.uint) (t : pystr) :
  ends_number t = true ->
  Json.span_digits (uint_chars d ++ t) = (uint_chars d, t).
Proof.
  intros Ht. induction d; cbn [uint_chars app];
    [apply span_digits_stop; assumption | ..];
    cbn [Json.span_digits]; rewrite IHd; reflexivity.
Qed.

Lemma match_frac_stop (t : pystr) :
  ends_number t = true -> Json.match_frac t = ([], t).
Proof.
  destruct t as [|c t]; [reflexivity|]. intros H.
  destruct (ends_number_cases c t H) as (_ & Hdot & _).
  unfold Json.match_frac. rewrite Hdot. reflexivity.
Qed.

Lemma match_exp_stop (t : pystr) :
  ends_number t = true -> Json.match_exp t = (None, t).
Proof.
  destruct t as [|c t]; [reflexivity|]. intros H.
  destruct (ends_number_cases c t H) as (_ & _ & He & HE).
  unfold Json.match_exp. rewrite He, HE. reflexivity.
Qed.

Lemma digits_value_acc (d : Decimal.uint) (acc : positive) :
  fold_left (fun a c => 10 * a + (c - 48)) (uint_chars d) (Npos acc)
  = Npos (Pos.of_uint_acc d acc).
Proof.
  revert acc. induction d; intros acc; cbn [uint_chars fold_left Pos.of_uint_acc];
    [reflexivity | ..];
    match goal with |- fold_left _ _ ?a = _ =>
      match goal with |- _ = Npos (Pos.of_uint_acc _ ?b) =>
        replace a with (Npos b) by lia end end;
    apply IHd.
Qed.

Lemma digits_value_uint (d : Decimal.uint) :
  Json.digits_value (uint_chars d) = Pos.of_uint d.
Proof.
  unfold Json.digits_value.
  induction d; cbn [uint_chars fold_left Pos.of_uint];
    [reflexivity | exact IHd | ..];
    match goal with |- fold_left _ _ ?a = Npos (Pos.of_uint_acc _ ?b) =>
      change a with (Npos b) end;
    apply digits_value_acc.
Qed.

Lemma unorm_zero_head (d d' : Decimal.uint) :
  Decimal.unorm d = Decimal.D0 d' -> d' = Decimal.Nil.
Proof.
  induction d; intros H; cbn in H; try discriminate; auto.
  congruence.
Qed.

Lemma to_uint_head (p : positive) :
  exists c r, uint_chars (Pos.to_uint p) = c :: r /\ 49 <= c <= 57.
Proof.
  assert (Hnorm : Decimal.unorm (Pos.to_uint p) = Pos.to_uint p).
  { rewrite <- DecimalPos.Unsigned.to_of, DecimalPos.Unsigned.of_to.
    reflexivity. }
  pose proof (DecimalPos.Unsigned.to_uint_nonzero p) as Hnz.
  pose proof (DecimalPos.Unsigned.to_uint_nonnil p) as Hnn.
  destruct (Pos.to_uint p) as [|d|d|d|d|d|d|d|d|d|d] eqn:E;
    [congruence | | ..]; cbn [uint_chars];
    try (do 2 eexists; split; [reflexivity|lia]).
  exfalso. apply Hnz. rewrite (unorm_zero_head (Decimal.D0 d) d Hnorm).
  reflexivity.
Qed.

Lemma scan_number_int (z : Z) (t : pystr) :
  ends_number t = true ->
  Json.scan_number (Json.int_repr z ++ t) = Some (VInt z, t).
Proof.
  intros Ht. unfold Json.scan_number, Json.int_repr.
  destruct z as [|p|p].
  - cbn. rewrite (match_frac_stop t Ht), (match_exp_stop t Ht). reflexivity.
  - destruct (to_uint_head p) as (c & r & E & Hc).
    assert (Hm : Json.match_integer (uint_chars (Pos.to_uint p) ++ t)
                 = Some (false, uint_chars (Pos.to_uint p), t)).
    { unfold Json.match_integer.
      pose proof (span_digits_uint (Pos.to_uint p) t Ht) as Hspan.
      rewrite E in *. cbn [app] in *.
      destruct (N.eqb_spec c 45); [lia|]. destruct (N.eqb_spec c 48); [lia|].
      replace (Json.is_digit c) with true.
      - rewrite Hspan. reflexivity.
      - symmetry. apply andb_true_iff. split; apply N.leb_le; lia. }
    rewrite Hm, (match_frac_stop t Ht), (match_exp_stop t Ht).
    rewrite digits_value_uint, DecimalPos.Unsigned.of_to. reflexivity.
  - destruct (to_uint_head p) as (c & r & E & Hc).
    assert (Hm : Json.match_integer ((lit "-" ++ uint_chars (Pos.to_uint p)) ++ t)
                 = Some (true, uint_chars (Pos.to_uint p), t)).
    { change ((lit "-" ++ uint_chars (Pos.to_uint p)) ++ t)
        with (45 :: (uint_chars (Pos.to_uint p) ++ t)).
      unfold Json.match_integer.
      pose proof (span_digits_uint (Pos.to_uint p) t Ht) as Hspan.
      rewrite E in *. cbn [app N.eqb Pos.eqb] in *.
      destruct (N.eqb_spec c 48); [lia|].
      replace (Json.is_digit c) with true.
      - rewrite Hspan. reflexivity.
      - symmetry. apply andb_true_iff. split; apply N.leb_le; lia. }
    rewrite Hm, (match_frac_stop t Ht), (match_exp_stop t Ht).
    rewrite digits_value_uint, DecimalPos.Unsigned.of_to. reflexivity.
Qed.

Lemma int_repr_head (z : Z) :
  exists c r, Json.int_repr z = c :: r /\ (c = 45 \/ 48 <= c <= 57).
Proof.
  destruct z as [|p|p]; unfold Json.int_repr.
  - exists 48, []. split; [reflexivity|lia].
  - destruct (to_uint_head p) as (c & r & E & Hc). exists c, r. split; [assumption|lia].
  - exists 45, (uint_chars (Pos.to_uint p)). split; [reflexivity|lia].
Qed.

Lemma scan_atom_int (z : Z) (t : pystr) :
  ends_number t = true ->
  Json.scan_atom (Json.int_repr z ++ t) = Json.Scanned (VInt z) t.
Proof.
  intros Ht. unfold Json.scan_atom. rewrite (scan_number_int z t Ht).
  destruct (int_repr_head z) as (c & r & E & Hc). rewrite E.
  change (lit "null") with [110; 117; 108; 108].
  change (lit "true") with [116; 114; 117; 101].
  change (lit "false") with [102; 97; 108; 115; 101].
  cbn [app Json.strip_prefix].
  destruct (N.eqb_spec 110 c); [lia|]. destruct (N.eqb_spec 116 c); [lia|].
  destruct (N.eqb_spec 102 c); [lia|]. reflexivity.
Qed.

Lemma scan_once_int (fuel : nat) (z : Z) (t : pystr) :
  ends_number t = true ->
  Json.scan_once (S fuel) (Json.int_repr z ++ t) = Json.Scanned (VInt z) t.
Proof.
  intros Ht. pose proof (scan_atom_int z t Ht) as Hatom.
  destruct (int_repr_head z) as (c & r & E & Hc). rewrite E in *.
  cbn [app Json.scan_once] in *.
  destruct (N.eqb_spec c 34); [lia|]. destruct (N.eqb_spec c 123); [lia|].
  destruct (N.eqb_spec c 91); [lia|]. exact Hatom.
Qed.

(* ================================================================= *)
(** ** The JSON round trip: tables of integers *)

Lemma skip_ws_indent (level : nat) (t : pystr) :
  Json.skip_ws (Json.newline_indent level ++ t) = Json.skip_ws t.
Proof.
  unfold Json.newline_indent. cbn [app Json.skip_ws Json.is_ws N.eqb Pos.eqb orb].
  induction (4 * level)%nat as [|n IH]; [reflexivity|].
  cbn [repeat app Json.skip_ws Json.is_ws N.eqb Pos.eqb orb]. exact IH.
Qed.

Lemma dict_set_fresh (d : dict) (k : pystr) (v : pyval) :
  ~ In k (keys d) -> dict_set d k v = d ++ [(k, v)].
Proof.
  induction d as [|[k' v'] d IH]; cbn [keys map fst In dict_set app]; intros H.
  - reflexivity.
  - destruct (str_eq_dec k k') as [->|_]; [tauto|].
    rewrite IH; [reflexivity|]. unfold keys. tauto.
Qed.

Lemma dict_of_pairs_nodup_from (d0 d : dict) :
  NoDup (keys (d0 ++ d)) ->
  fold_left (fun acc kv => dict_set acc (fst kv) (snd kv)) d d0 = d0 ++ d.
Proof.
  revert d0. induction d as [|[k v] d IH]; intros d0 Hnd; cbn [fold_left fst snd].
  - now rewrite List.app_nil_r.
  - rewrite dict_set_fresh.
    + rewrite IH; rewrite <- List.app_assoc; [reflexivity|exact Hnd].
    + unfold keys in *. rewrite map_app in Hnd. cbn [map fst] in Hnd.
      apply NoDup_remove_2 in Hnd. intros Hin. apply Hnd.
      apply in_or_app. left. exact Hin.
Qed.

Lemma dict_of_pairs_nodup (d : dict) :
  NoDup (keys d) -> Json.dict_of_pairs d = d.
Proof. intros H. apply (dict_of_pairs_nodup_from [] d H). Qed.

Lemma skip_ws_int (z : Z) (t : pystr) :
  Json.skip_ws (Json.int_repr z ++ t) = Json.int_repr z ++ t.
Proof.
  destruct (int_repr_head z) as (c & r & E & Hc). rewrite E.
  cbn [app Json.skip_ws]. unfold Json.is_ws.
  destruct (N.eqb_spec c 32); [lia|]. destruct (N.eqb_spec c 9); [lia|].
  destruct (N.eqb_spec c 10); [lia|]. destruct (N.eqb_spec c 13); [lia|].
  reflexivity.
Qed.

Lemma members_cons (kv : pystr * pyval) (d : dict) :
  members (kv :: d)
  = member kv ++ match d with [] => [] | _ :: _ => separator ++ members d end.
Proof.
  unfold members. destruct d; cbn [map Json.join].
  - now rewrite List.app_nil_r.
  - reflexivity.
Qed.

(** One member, from just after the opening quote of its key up to the
    text [rest] that follows its value. *)
Lemma member_scanned (k : pystr) (z : Z) (rest : pystr) (fuel : nat) :
  valid_str k -> no_surrogate_pair k = true -> ends_number rest = true ->
  exists body,
    member (k, VInt z) ++ rest = 34 :: body /\
    exists after,
      Json.scanstring body [] = Json.Scanned k (58 :: after) /\
      Json.scan_once (S fuel) (Json.skip_ws after) = Json.Scanned (VInt z) rest.
Proof.
  intros Hvalid Hpair Hrest. unfold member. cbn [fst snd Json.encode].
  destruct (scanstring_encode_str k (lit ": " ++ Json.int_repr z ++ rest)
              Hvalid Hpair) as (body & E & Hscan).
  exists body. split.
  - rewrite <- E, <- !List.app_assoc. reflexivity.
  - exists (32 :: Json.int_repr z ++ rest). split; [exact Hscan|].
    cbn [Json.skip_ws Json.is_ws N.eqb Pos.eqb orb].
    rewrite skip_ws_int. apply scan_once_int. exact Hrest.
Qed.

Lemma object_items_members (d : dict) :
  forall (kv : pystr * pyval) (acc : list (pystr * pyval)) (fuel : nat) (t : pystr),
    int_valued (kv :: d) = true -> plain_keys (kv :: d) ->
    (S (length d) < fuel)%nat ->
    exists body,
      members (kv :: d) ++ Json.newline_indent 0 ++ lit "}" ++ t = 34 :: body /\
      Json.object_items fuel body acc
      = Json.Scanned (VDict (Json.dict_of_pairs (rev acc ++ kv :: d))) t.
Proof.
  induction d as [|kv2 d IH]; intros [k v] acc fuel t Hint Hkeys Hfuel.
  - cbn [int_valued forallb snd] in Hint. destruct v; try discriminate.
    inversion Hkeys as [|? ? [Hvalid Hpair] _]; subst.
    destruct fuel as [|[|fuel]]; [cbn in Hfuel; lia..|].
    destruct (member_scanned k z (Json.newline_indent 0 ++ lit "}" ++ t) fuel
                Hvalid Hpair eq_refl) as (body & E & after & Hkey & Hval).
    exists body. split.
    + rewrite members_cons, List.app_nil_r. exact E.
    + cbn [Json.object_items]. rewrite Hkey.
      cbn [Json.skip_ws Json.is_ws N.eqb Pos.eqb orb]. rewrite Hval.
      rewrite skip_ws_indent. reflexivity.
  - cbn [int_valued forallb snd] in Hint. apply andb_true_iff in Hint as [Hv Hint].
    destruct v; try discriminate.
    inversion Hkeys as [|? ? [Hvalid Hpair] Hkeys']; subst.
    destruct fuel as [|[|fuel]]; [cbn in Hfuel; lia..|].
    destruct (IH kv2 ((k, VInt z) :: acc) (S fuel) t Hint Hkeys')
      as (body2 & E2 & Hrest); [cbn [length] in *; lia|].
    destruct (member_scanned k z
                (separator ++ members (kv2 :: d) ++ Json.newline_indent 0
                   ++ lit "}" ++ t) fuel Hvalid Hpair eq_refl)
      as (body & E & after & Hkey & Hval).
    exists body. split.
    + rewrite members_cons, <- !List.app_assoc. exact E.
    + remember (S fuel) as fuel1 eqn:Efuel. clear Efuel IH.
      cbn [Json.object_items]. rewrite Hkey.
      cbn [Json.skip_ws Json.is_ws N.eqb Pos.eqb orb]. rewrite Hval.
      rewrite E2. unfold separator.
      change (lit ",") with [44].
      cbn [app Json.skip_ws Json.is_ws N.eqb Pos.eqb orb].
      rewrite skip_ws_indent.
      cbn [Json.skip_ws Json.is_ws N.eqb Pos.eqb orb].
      rewrite Hrest. cbn [rev]. rewrite <- List.app_assoc. reflexivity.
Qed.

Lemma members_length (d : dict) : (length d <= length (members d))%nat.
Proof.
  induction d as [|kv d IH]; [cbn; lia|].
  rewrite members_cons, length_app. unfold member, Json.encode_str.
  rewrite <- !List.app_assoc. cbn [app length].
  destruct d as [|kv' d]; [cbn [length]; lia|].
  rewrite (length_app separator). lia.
Qed.

Lemma dumps_table (kv : pystr * pyval) (d : dict) :
  Json.dumps (VDict (kv :: d))
  = 123 :: Json.newline_indent 1 ++ members (kv :: d)
        ++ Json.newline_indent 0 ++ lit "}".
Proof. reflexivity. Qed.

(** [json.loads] reads back what [json.dumps] writes for a table of
    integers with distinct, plain keys. *)
Lemma loads_dumps_table (d : dict) :
  int_valued d = true -> plain_keys d -> NoDup (keys d) ->
  Json.loads (Json.dumps (VDict d)) = Ret (VDict d).
Proof.
  intros Hint Hkeys Hnodup. destruct d as [|kv d]; [reflexivity|].
  rewrite dumps_table. unfold Json.loads, Json.budget.
  set (text := 123 :: Json.newline_indent 1 ++ members (kv :: d)
                   ++ Json.newline_indent 0 ++ lit "}").
  assert (Hlen : (S (length d) < 2 * length text)%nat).
  { unfold text. cbn [length]. rewrite !length_app.
    pose proof (members_length (kv :: d)) as H. cbn [length] in H. lia. }
  destruct (object_items_members d kv [] (2 * length text) [] Hint Hkeys Hlen)
    as (body & E & Hscan).
  rewrite List.app_nil_r in E.
  remember (2 * length text)%nat as fuel eqn:Efuel. clear Efuel Hlen.
  unfold text.
  cbn [Json.skip_ws Json.is_ws N.eqb Pos.eqb orb Json.scan_once].
  rewrite skip_ws_indent, E.
  cbn [Json.skip_ws Json.is_ws N.eqb Pos.eqb orb].
  rewrite Hscan. cbn [rev app Json.skip_ws].
  rewrite (dict_of_pairs_nodup (kv :: d) Hnodup). reflexivity.
Qed.

(* ================================================================= *)
(** ** Saving, then loading *)

Lemma universal_newlines_id (s : pystr) :
  Forall (fun c => c <> 13) s -> universal_newlines s = s.
Proof.
  induction 1 as [|c s Hc _ IH]; [reflexivity|].
  cbn [universal_newlines]. destruct (N.eqb_spec c 13); [contradiction|].
  rewrite IH. reflexivity.
Qed.

Lemma hex_digit_no_cr (n : N) : Json.hex_digit n <> 13.
Proof. unfold Json.hex_digit. destruct (n <? 10); lia. Qed.

Lemma escape_char_no_cr (c : N) : Forall (fun c => c <> 13) (Json.escape_char c).
Proof.
  unfold Json.escape_char, Json.u_escape.
  repeat match goal with
  | |- context [N.eqb c ?k] =>
      destruct (N.eqb_spec c k); [repeat constructor; discriminate|]
  end.
  destruct ((32 <=? c) && (c <=? 126))%bool; [repeat constructor; assumption|].
  destruct (c <? 0x10000); cbn [app];
    repeat constructor; try discriminate; apply hex_digit_no_cr.
Qed.

Lemma encode_str_no_cr (s : pystr) : Forall (fun c => c <> 13) (Json.encode_str s).
Proof.
  unfold Json.encode_str. apply Forall_app. split; [repeat constructor; discriminate|].
  apply Forall_app. split; [|repeat constructor; discriminate].
  induction s as [|c s IH]; cbn [flat_map]; [constructor|].
  apply Forall_app. split; [apply escape_char_no_cr | exact IH].
Qed.

Lemma uint_chars_no_cr (d : Decimal.uint) : Forall (fun c => c <> 13) (uint_chars d).
Proof. induction d; cbn [uint_chars]; constructor; try discriminate; assumption. Qed.

Lemma int_repr_no_cr (z : Z) : Forall (fun c => c <> 13) (Json.int_repr z).
Proof.
  destruct z; unfold Json.int_repr.
  - repeat constructor; discriminate.
  - apply uint_chars_no_cr.
  - apply Forall_app. split; [repeat constructor; discriminate|apply uint_chars_no_cr].
Qed.

Lemma newline_indent_no_cr (level : nat) :
  Forall (fun c => c <> 13) (Json.newline_indent level).
Proof.
  unfold Json.newline_indent. constructor; [discriminate|].
  induction (4 * level)%nat; cbn [repeat]; constructor; try discriminate; assumption.
Qed.

Ltac no_cr :=
  repeat first
    [ apply encode_str_no_cr | apply int_repr_no_cr | apply newline_indent_no_cr
    | apply Forall_app; split
    | apply Forall_nil | apply Forall_cons; [discriminate|] ].

Lemma members_no_cr (d : dict) :
  int_valued d = true -> Forall (fun c => c <> 13) (members d).
Proof.
  induction d as [|[k v] d IH]; intros Hint; [constructor|].
  cbn [int_valued forallb snd] in Hint. apply andb_true_iff in Hint as [Hv Hint].
  destruct v; try discriminate.
  rewrite members_cons. unfold member. cbn [fst snd Json.encode].
  destruct d as [|kv' d]; [no_cr|].
  unfold separator. no_cr. apply IH. exact Hint.
Qed.

Lemma dumps_table_no_cr (d : dict) :
  int_valued d = true -> Forall (fun c => c <> 13) (Json.dumps (VDict d)).
Proof.
  intros Hint. destruct d as [|kv d]; [repeat constructor; discriminate|].
  rewrite dumps_table. apply Forall_cons; [discriminate|].
  apply Forall_app; split; [apply newline_indent_no_cr|].
  apply Forall_app; split; [apply members_no_cr; exact Hint|].
  no_cr.
Qed.

Lemma invariant_int_valued (d : dict) :
  invariant (VDict d) = true -> int_valued d = true.
Proof.
  cbn [invariant]. unfold int_valued.
  induction d as [|[k v] d IH]; cbn [forallb snd]; [reflexivity|].
  intros H. apply andb_true_iff in H as [Hv Hd].
  destruct v; try discriminate. cbn [andb]. auto.
Qed.

(** After a save that could open its file, the file holds the JSON text
    of the table. *)
Lemma save_data_writes (w : world) (path : pystr) :
  writable (files w path) = true ->
  fst (save_data path w) = Ret tt /\
  files (snd (save_data path w)) path = Text (Json.dumps (stock_data w)) /\
  stock_data (snd (save_data path w)) = stock_data w.
Proof.
  destruct w as [t fs lg out]. cbn [files stock_data]. intros Hw.
  unfold save_data, open_write, write_text, set_file. run.
  destruct (fs path) as [[|]| | |]; try discriminate; cbn;
    destruct (str_eq_dec path path); try contradiction; auto.
Qed.

(** C7, as stated, fails: a key made of a lone high surrogate followed by
    a lone low surrogate is written as two [\uxxxx] escapes, which
    [json.loads] reads back as the single code point U+1F600; the table
    loaded differs from the table saved. *)
Lemma save_load_joins_surrogates :
  invariant (stock_data surrogate_world) = true /\
  fst (save_data default_file surrogate_world) = Ret tt /\
  files (snd (save_data default_file surrogate_world)) default_file
    = Text (jlit "{" ++ [10] ++ jlit "    '\ud83d\ude00': 1" ++ [10] ++ jlit "}") /\
  fst (load_data default_file (snd (save_data default_file surrogate_world)))
    = Ret (VDict [([0x1f600], VInt 1)]) /\
  fst (load_data default_file (snd (save_data default_file surrogate_world)))
    <> Ret (stock_data surrogate_world).
Proof.
  vm_compute. repeat split; try reflexivity. discriminate.
Qed.

(** C7, amended: for a table that satisfies the positive-integer
    invariant and none of whose keys has a high surrogate directly
    followed by a low surrogate, a save that can open its file, followed
    by a load from the same path, returns a table identical to the one
    saved, with the same keys in the same order and the same integer
    values.  ([wf_dict] states what holds of every Python dictionary of
    strings: distinct keys, code points below 0x110000.) *)
Theorem save_then_load_roundtrip (w : world) (d : dict) (path : pystr) :
  stock_data w = VDict d -> invariant (VDict d) = true -> wf_dict d ->
  Forall (fun k => no_surrogate_pair k = true) (keys d) ->
  writable (files w path) = true ->
  fst (save_data path w) = Ret tt /\
  fst (load_data path (snd (save_data path w))) = Ret (VDict d).
Proof.
  intros Ht Hinv [Hnodup Hvalid] Hpair Hw.
  destruct (save_data_writes w path Hw) as (Hret & Hfile & _).
  split; [exact Hret|].
  pose proof (invariant_int_valued d Hinv) as Hint.
  assert (Hkeys : plain_keys d).
  { unfold plain_keys. rewrite Forall_forall in *. auto. }
  apply (load_data_decoded _ path (Json.dumps (VDict d))).
  - unfold read_text. rewrite Hfile, Ht. cbn [fst].
    rewrite (universal_newlines_id _ (dumps_table_no_cr d Hint)). reflexivity.
  - apply loads_dumps_table; assumption.
Qed.

Lemma save_then_load_roundtrip_witness :
  fst (save_data default_file
         (mkWorld (VDict [(lit "apple", VInt 7); (lit "banana", VInt 8)])
                  (fun _ => Absent true) [] [])) = Ret tt /\
  fst (load_data default_file
         (snd (save_data default_file
                 (mkWorld (VDict [(lit "apple", VInt 7); (lit "banana", VInt 8)])
                          (fun _ => Absent true) [] []))))
  = Ret (VDict [(lit "apple", VInt 7); (lit "banana", VInt 8)]).
Proof.
  apply (save_then_load_roundtrip
           (mkWorld (VDict [(lit "apple", VInt 7); (lit "banana", VInt 8)])
                    (fun _ => Absent true) [] [])
           [(lit "apple", VInt 7); (lit "banana", VInt 8)] default_file).
  - reflexivity.
  - reflexivity.
  - split.
    + repeat constructor; cbn; intuition discriminate.
    + repeat constructor; cbn; lia.
  - repeat constructor.
  - reflexivity.
Defined.

(* ================================================================= *)
(** ** The budget of the decoder is never exhausted *)

Local Open Scope nat_scope.

Lemma skip_ws_length (s : pystr) : length (Json.skip_ws s) <= length s.
Proof.
  induction s as [|c s IH]; cbn [Json.skip_ws length]; [lia|].
  destruct (Json.is_ws c); cbn [length]; lia.
Qed.

Lemma skip_ws_cons_length (s r : pystr) (c : N) :
  Json.skip_ws s = c :: r -> length r < length s.
Proof.
  intros H. pose proof (skip_ws_length s) as Hl. rewrite H in Hl.
  cbn [length] in Hl. lia.
Qed.

Lemma scanstring_progress (n : nat) :
  forall (s acc k r : pystr),
    length s <= n -> Json.scanstring s acc = Json.Scanned k r ->
    length r < length s.
Proof.
  induction n as [|n IH]; intros s acc k r Hlen H;
    (destruct s as [|c s]; [discriminate|]); cbn [length] in Hlen; [lia|].
  cbn [Json.scanstring] in H.
  repeat match type of H with
         | context [if ?b then _ else _] => destruct b
         | context [match ?x with _ => _ end] => destruct x
         end;
    try discriminate;
    try (injection H as _ <-; cbn [length]; lia);
    apply IH in H; cbn [length] in *; lia.
Qed.

Lemma strip_prefix_length (p s r : pystr) :
  Json.strip_prefix p s = Some r -> length r + length p = length s.
Proof.
  revert s. induction p as [|a p IH]; intros s H; cbn [Json.strip_prefix] in H.
  - injection H as <-. cbn [length]. lia.
  - destruct s as [|b s]; [discriminate|]. destruct (a =? b)%N; [|discriminate].
    apply IH in H. cbn [length]. lia.
Qed.

Lemma span_digits_length (s ds r : pystr) :
  Json.span_digits s = (ds, r) -> length r <= length s.
Proof.
  revert ds r. induction s as [|c s IH]; intros ds r H; cbn [Json.span_digits] in H.
  - injection H as _ <-. lia.
  - destruct (Json.is_digit c).
    + destruct (Json.span_digits s) as [ds' r'] eqn:E. injection H as _ <-.
      specialize (IH ds' r' eq_refl). cbn [length]. lia.
    + injection H as _ <-. lia.
Qed.

Lemma match_integer_length (s ds r : pystr) (neg : bool) :
  Json.match_integer s = Some (neg, ds, r) -> length r < length s.
Proof.
  unfold Json.match_integer. intros H.
  destruct s as [|c s]; [discriminate|].
  destruct (c =? 45)%N.
  - destruct s as [|c' s]; [discriminate|].
    destruct (c' =? 48)%N; [injection H as _ _ <-; cbn [length]; lia|].
    destruct (Json.is_digit c'); [|discriminate].
    destruct (Json.span_digits (c' :: s)) as [ds' r'] eqn:E.
    injection H as _ _ <-. apply span_digits_length in E. cbn [length] in *. lia.
  - destruct (c =? 48)%N; [injection H as _ _ <-; cbn [length]; lia|].
    destruct (Json.is_digit c) eqn:Hd; [|discriminate].
    destruct (Json.span_digits (c :: s)) as [ds' r'] eqn:E.
    injection H as _ _ <-. cbn [Json.span_digits] in E. rewrite Hd in E.
    destruct (Json.span_digits s) as [ds2 r2] eqn:E2. injection E as _ <-.
    apply span_digits_length in E2. cbn [length]. lia.
Qed.

Lemma match_frac_length (s fs r : pystr) :
  Json.match_frac s = (fs, r) -> length r <= length s.
Proof.
  unfold Json.match_frac. intros H. destruct s as [|c s]; [injection H as _ <-; lia|].
  destruct (c =? 46)%N; [|injection H as _ <-; lia].
  destruct (Json.span_digits s) as [[|f fs'] r'] eqn:E; injection H as _ <-;
    [lia|]. apply span_digits_length in E. cbn [length]. lia.
Qed.

Lemma match_exp_length (s r : pystr) (ex : option (bool * pystr)) :
  Json.match_exp s = (ex, r) -> length r <= length s.
Proof.
  unfold Json.match_exp. intros H. destruct s as [|c s]; [injection H as _ <-; lia|].
  destruct ((c =? 101) || (c =? 69))%N; [|injection H as _ <-; lia].
  destruct s as [|g s].
  - cbn in H. injection H as _ <-. lia.
  - destruct (g =? 45)%N; [|destruct (g =? 43)%N];
      match type of H with
      | context [Json.span_digits ?x] =>
          destruct (Json.span_digits x) as [[|e es] r'] eqn:E
      end; injection H as _ <-; try lia;
      apply span_digits_length in E; cbn [length] in *; lia.
Qed.

Lemma scan_number_length (s r : pystr) (v : pyval) :
  Json.scan_number s = Some (v, r) -> length r < length s.
Proof.
  unfold Json.scan_number. intros H.
  destruct (Json.match_integer s) as [[[neg ds] r0]|] eqn:E0; [|discriminate].
  destruct (Json.match_frac r0) as [fs r1] eqn:E1.
  destruct (Json.match_exp r1) as [ex r2] eqn:E2.
  apply match_integer_length in E0. apply match_frac_length in E1.
  apply match_exp_length in E2.
  destruct fs, ex; injection H as _ <-; lia.
Qed.

Lemma scan_atom_progress (s r : pystr) (v : pyval) :
  Json.scan_atom s = Json.Scanned v r -> length r < length s.
Proof.
  unfold Json.scan_atom. intros H.
  repeat match type of H with
         | context [Json.strip_prefix ?p s] =>
             let E := fresh "E" in
             destruct (Json.strip_prefix p s) eqn:E;
             [apply strip_prefix_length in E; cbn in E|]
         | context [Json.scan_number s] =>
             let E := fresh "E" in
             destruct (Json.scan_number s) as [[? ?]|] eqn:E;
             [apply scan_number_length in E|]
         end;
    try discriminate; try (injection H as _ <-; cbn [length] in *; lia).
Qed.

(** Break the hypothesis [H] down along the matches of the scanner,
    keeping what each scrutinee was found to be. *)
Ltac scan_cases H :=
  repeat match type of H with
         | context [if ?b then _ else _] => destruct b
         | context [match ?x with _ => _ end] =>
             let E := fresh "E" in destruct x eqn:E
         end;
  try discriminate.

Lemma scan_progress (fuel : nat) :
  (forall s v r, Json.scan_once fuel s = Json.Scanned v r -> length r < length s) /\
  (forall s acc v r,
      Json.array_items fuel s acc = Json.Scanned v r -> length r < length s) /\
  (forall s acc v r,
      Json.object_items fuel s acc = Json.Scanned v r -> length r < length s).
Proof.
  induction fuel as [|fuel (IHonce & IHarr & IHobj)];
    [repeat split; intros; discriminate|].
  repeat split.
  - intros s v r H. cbn [Json.scan_once] in H.
    destruct s as [|c s]; [discriminate|]. cbn [length].
    destruct (c =? 34)%N.
    { destruct (Json.scanstring s []) as [str r0| |] eqn:E; try discriminate.
      injection H as _ <-.
      apply (scanstring_progress (length s)) in E; lia. }
    destruct (c =? 123)%N.
    { destruct (Json.skip_ws s) as [|c1 r1] eqn:E; [discriminate|].
      apply skip_ws_cons_length in E.
      destruct (c1 =? 125)%N; [injection H as _ <-; lia|].
      destruct (c1 =? 34)%N; [|discriminate]. apply IHobj in H. lia. }
    destruct (c =? 91)%N.
    { destruct (Json.skip_ws s) as [|c1 r1] eqn:E; [discriminate|].
      apply skip_ws_cons_length in E.
      destruct (c1 =? 93)%N; [injection H as _ <-; lia|].
      apply IHarr in H. cbn [length] in H. lia. }
    apply scan_atom_progress in H. cbn [length] in H. lia.
  - intros s acc v r H. cbn [Json.array_items] in H.
    destruct (Json.scan_once fuel s) as [v0 r0| |] eqn:E0; try discriminate.
    apply IHonce in E0.
    destruct (Json.skip_ws r0) as [|c r1] eqn:E1; [discriminate|].
    apply skip_ws_cons_length in E1.
    destruct (c =? 93)%N; [injection H as _ <-; lia|].
    destruct (c =? 44)%N; [|discriminate].
    apply IHarr in H. pose proof (skip_ws_length r1). lia.
  - intros s acc v r H. cbn [Json.object_items] in H.
    destruct (Json.scanstring s []) as [key r0| |] eqn:E0; try discriminate.
    apply (scanstring_progress (length s)) in E0; [|lia].
    destruct (Json.skip_ws r0) as [|c r1] eqn:E1; [discriminate|].
    apply skip_ws_cons_length in E1.
    destruct (c =? 58)%N; [|discriminate].
    destruct (Json.scan_once fuel (Json.skip_ws r1)) as [v0 r2| |] eqn:E2;
      try discriminate.
    apply IHonce in E2. pose proof (skip_ws_length r1).
    destruct (Json.skip_ws r2) as [|c2 r3] eqn:E3; [discriminate|].
    apply skip_ws_cons_length in E3.
    destruct (c2 =? 125)%N; [injection H as _ <-; lia|].
    destruct (c2 =? 44)%N; [|discriminate].
    destruct (Json.skip_ws r3) as [|c3 r4] eqn:E4; [discriminate|].
    apply skip_ws_cons_length in E4.
    destruct (c3 =? 34)%N; [|discriminate].
    apply IHobj in H. lia.
Qed.

Lemma scanstring_never_exhausted (s acc : pystr) :
  Json.scanstring s acc <> Json.Exhausted.
Proof.
  intros H. remember (length s) as n eqn:Hn.
  assert (Hlen : length s <= n) by lia. clear Hn.
  revert s acc Hlen H. induction n as [|n IH]; intros s acc Hlen H;
    (destruct s as [|c s]; [discriminate|]); cbn [length] in Hlen; [lia|].
  cbn [Json.scanstring] in H.
  repeat match type of H with
         | context [if ?b then _ else _] => destruct b
         | context [match ?x with _ => _ end] => destruct x
         end;
    try discriminate;
    apply IH in H; try assumption; cbn [length] in *; lia.
Qed.

Lemma scan_atom_never_exhausted (s : pystr) : Json.scan_atom s <> Json.Exhausted.
Proof. unfold Json.scan_atom. intros H. scan_cases H. Qed.

Lemma scan_never_exhausted (fuel : nat) :
  (forall s, 2 * length s + 1 <= fuel -> Json.scan_once fuel s <> Json.Exhausted) /\
  (forall s acc, 2 * length s + 2 <= fuel ->
                 Json.array_items fuel s acc <> Json.Exhausted) /\
  (forall s acc, 2 * length s + 2 <= fuel ->
                 Json.object_items fuel s acc <> Json.Exhausted).
Proof.
  induction fuel as [|fuel (IHonce & IHarr & IHobj)];
    [repeat split; intros; lia|].
  destruct (scan_progress fuel) as (Ponce & Parr & Pobj).
  repeat split.
  - intros s Hf H. cbn [Json.scan_once] in H.
    destruct s as [|c s]; [discriminate|]. cbn [length] in Hf.
    destruct (c =? 34)%N.
    { destruct (Json.scanstring s []) eqn:E; try discriminate.
      exact (scanstring_never_exhausted _ _ E). }
    destruct (c =? 123)%N.
    { destruct (Json.skip_ws s) as [|c1 r1] eqn:E; [discriminate|].
      apply skip_ws_cons_length in E.
      destruct (c1 =? 125)%N; [discriminate|].
      destruct (c1 =? 34)%N; [|discriminate]. apply IHobj in H; [assumption|lia]. }
    destruct (c =? 91)%N.
    { destruct (Json.skip_ws s) as [|c1 r1] eqn:E; [discriminate|].
      apply skip_ws_cons_length in E.
      destruct (c1 =? 93)%N; [discriminate|].
      apply IHarr in H; [assumption|cbn [length]; lia]. }
    exact (scan_atom_never_exhausted _ H).
  - intros s acc Hf H. cbn [Json.array_items] in H.
    destruct (Json.scan_once fuel s) as [v0 r0| |] eqn:E0; try discriminate.
    + apply Ponce in E0.
      destruct (Json.skip_ws r0) as [|c r1] eqn:E1; [discriminate|].
      apply skip_ws_cons_length in E1.
      destruct (c =? 93)%N; [discriminate|].
      destruct (c =? 44)%N; [|discriminate].
      apply IHarr in H; [assumption|]. pose proof (skip_ws_length r1). lia.
    + apply IHonce in E0; [assumption|lia].
  - intros s acc Hf H. cbn [Json.object_items] in H.
    destruct (Json.scanstring s []) as [key r0| |] eqn:E0; try discriminate.
    + apply (scanstring_progress (length s)) in E0; [|lia].
      destruct (Json.skip_ws r0) as [|c r1] eqn:E1; [discriminate|].
      apply skip_ws_cons_length in E1.
      destruct (c =? 58)%N; [|discriminate].
      pose proof (skip_ws_length r1).
      destruct (Json.scan_once fuel (Json.skip_ws r1)) as [v0 r2| |] eqn:E2;
        try discriminate.
      * apply Ponce in E2.
        destruct (Json.skip_ws r2) as [|c2 r3] eqn:E3; [discriminate|].
        apply skip_ws_cons_length in E3.
        destruct (c2 =? 125)%N; [discriminate|].
        destruct (c2 =? 44)%N; [|discriminate].
        destruct (Json.skip_ws r3) as [|c3 r4] eqn:E4; [discriminate|].
        apply skip_ws_cons_length in E4.
        destruct (c3 =? 34)%N; [|discriminate].
        apply IHobj in H; [assumption|lia].
      * apply IHonce in E2; [assumption|lia].
    + exact (scanstring_never_exhausted _ _ E0).
Qed.

(** Whatever the document, the decoder ends within its budget: a
    [JSONDecodeError] of [Json.loads] always stands for text that is not
    JSON. *)
Lemma budget_suffices (s : pystr) :
  Json.scan_once (Json.budget s) (Json.skip_ws s) <> Json.Exhausted.
Proof.
  apply (proj1 (scan_never_exhausted (Json.budget s))).
  unfold Json.budget. pose proof (skip_ws_length s). lia.
Qed.


(* ================================================================= *)
(** ** Further properties of the operations *)

Local Open Scope Z_scope.

Lemma bind_ret {A B} (c : M A) (k : A -> M B) (w w' : world) (a : A) :
  c w = (Ret a, w') -> bind c k w = k a w'.
Proof. intros H. unfold bind. rewrite H. reflexivity. Qed.

Lemma bind_raise {A B} (c : M A) (k : A -> M B) (w w' : world) (e : exn) :
  c w = (Raise e, w') -> bind c k w = (Raise e, w').
Proof. intros H. unfold bind. rewrite H. reflexivity. Qed.

Lemma add_item_eq d fs lg out (name : pystr) (qty : pyval) (q n : Z) :
  name <> [] -> as_int qty = Some q -> 0 <= q ->
  as_int (stored d name) = Some n ->
  add_item (VStr name) qty (mkWorld (VDict d) fs lg out)
  = (Ret tt,
     mkWorld (VDict (dict_set d name (VInt (n + q)))) fs
             (lg ++ [mkLog INFO "Added %d of '%s'. New total: %d"
                           [AVal qty; AVal (VStr name); AVal (VInt (n + q))]])
             out).
Proof.
  intros Hname Hq Hpos Hn. rewrite add_item_cases.
  rewrite (truthy_name name Hname), Hq.
  destruct (Z.ltb_spec q 0) as [?|_]; [lia|].
  run. fold (stored d name). rewrite (py_add_as_int _ n q Hn). simpl.
  repeat (rewrite dict_get_set_same; simpl). reflexivity.
Qed.


Lemma py_sub_int_number (v new : pyval) (q : Z) :
  py_sub_int v q = Ret new -> is_number new = true.
Proof.
  destruct v as [| b | z | f | | |]; cbn [py_sub_int]; try discriminate.
  - intros [= <-]. reflexivity.
  - intros [= <-]. reflexivity.
  - destruct (Float64.is_finite _); [intros [= <-]; reflexivity|discriminate].
Qed.

Lemma py_le_int_number (v : pyval) (t : Z) :
  is_number v = true -> exists b, py_le_int v t = Ret b.
Proof. destruct v; try discriminate; cbn [py_le_int]; eauto. Qed.

Lemma py_add_int_raises (v : pyval) (q : Z) (e : exn) :
  py_add_int v q = Raise e -> e = TypeError \/ e = OverflowError.
Proof.
  destruct v as [| b | z | f | | |]; cbn [py_add_int]; try discriminate;
    try (intros [= <-]; auto).
  destruct (Float64.is_finite _); [discriminate|intros [= <-]; auto].
Qed.

Lemma py_sub_int_raises (v : pyval) (q : Z) (e : exn) :
  py_sub_int v q = Raise e -> e = TypeError \/ e = OverflowError.
Proof.
  destruct v as [| b | z | f | | |]; cbn [py_sub_int]; try discriminate;
    try (intros [= <-]; auto).
  destruct (Float64.is_finite _); [discriminate|intros [= <-]; auto].
Qed.

(** Close a goal about a call that has been run to its outcome. *)
Ltac outcome :=
  repeat split; auto; try discriminate;
  try (match goal with H : Raise _ = Raise _ |- _ => injection H as <- end;
       auto).

(** X1: in every world and for all arguments, [add_item] and
    [remove_item] leave the files and the standard output alone; and when
    one of them raises, which can only be a [TypeError], an
    [AttributeError] or an [OverflowError], it leaves the whole world,
    the table included, exactly as it found it. *)
Theorem item_ops_are_safe (w : world) (item qty : pyval) :
  (files (snd (add_item item qty w)) = files w /\
   stdout (snd (add_item item qty w)) = stdout w /\
   forall e, fst (add_item item qty w) = Raise e ->
             snd (add_item item qty w) = w /\
             (e = TypeError \/ e = AttributeError \/ e = OverflowError)) /\
  (files (snd (remove_item item qty w)) = files w /\
   stdout (snd (remove_item item qty w)) = stdout w /\
   forall e, fst (remove_item item qty w) = Raise e ->
             snd (remove_item item qty w) = w /\
             (e = TypeError \/ e = AttributeError \/ e = OverflowError)).
Proof.
  destruct w as [t fs lg out]. rewrite add_item_cases, remove_item_cases.
  destruct item as [| | | |name| |]; try (run; outcome; fail).
  destruct (truthy (VStr name)); [|run; outcome; fail].
  destruct (as_int qty) as [q|]; [|run; outcome; fail].
  destruct (q <? 0); [run; outcome; fail|].
  destruct t as [| | | | | |d]; try (run; outcome; fail).
  split.
  - run. destruct (py_add_int _ q) as [new|e0] eqn:Eadd; simpl.
    + repeat (rewrite dict_get_set_same; simpl). outcome.
    + destruct (py_add_int_raises _ _ _ Eadd) as [-> | ->]; outcome.
  - run. destruct (dict_get d name) as [old|]; simpl; [|outcome].
    destruct (py_sub_int old q) as [new|e0] eqn:Esub; simpl.
    + repeat (rewrite dict_get_set_same; simpl).
      destruct (py_le_int_number new 0 (py_sub_int_number _ _ _ Esub)) as [b ->].
      simpl. destruct b; simpl.
      * repeat (rewrite dict_get_set_same; simpl). outcome.
      * outcome.
    + destruct (py_sub_int_raises _ _ _ Esub) as [-> | ->]; simpl; outcome.
Qed.

Lemma item_ops_are_safe_witness :
  let w := mkWorld (VDict [(lit "apple", VStr (lit "seven"))])
                   (fun _ => Absent true) [] [] in
  fst (add_item (VStr (lit "apple")) (VInt 1) w) = Raise TypeError /\
  snd (add_item (VStr (lit "apple")) (VInt 1) w) = w /\
  fst (remove_item (VStr (lit "apple")) (VInt 1) w) = Raise TypeError /\
  snd (remove_item (VStr (lit "apple")) (VInt 1) w) = w.
Proof.
  cbv zeta.
  pose proof (item_ops_are_safe
                (mkWorld (VDict [(lit "apple", VStr (lit "seven"))])
                         (fun _ => Absent true) [] [])
                (VStr (lit "apple")) (VInt 1)) as [(_ & _ & Ha) (_ & _ & Hr)].
  split; [reflexivity|]. split; [apply (Ha TypeError); reflexivity|].
  split; [reflexivity|]. apply (Hr TypeError); reflexivity.
Defined.

Lemma print_items_eq (items : dict) t fs lg out :
  print_items items (mkWorld t fs lg out)
  = (Ret tt,
     mkWorld t fs lg
       (out ++ map (fun kv => [Lit "  "; Str (VStr (fst kv)); Lit ": ";
                               Str (snd kv)]) items)).
Proof.
  revert out. induction items as [|[k v] items IH]; intros out.
  - cbn [print_items map]. rewrite List.app_nil_r. reflexivity.
  - cbn [print_items]. unfold bind at 1. unfold print at 1.
    cbn [stock_data files log stdout]. rewrite IH.
    cbn [map fst snd]. rewrite <- List.app_assoc. reflexivity.
Qed.

Lemma print_data_eq t fs lg out :
  is_dict t = true \/ truthy t = false ->
  print_data (mkWorld t fs lg out)
  = (Ret tt,
     mkWorld t fs lg
       (out ++ [[Lit (newline ++ "--- Items Report ---")]]
            ++ report_lines t
            ++ [[Lit ("--------------------" ++ newline)]])).
Proof.
  intros H. unfold print_data, bind, print, stock_items.
  cbn [stock_data files log stdout].
  destruct (truthy t) eqn:Htruthy; cbn [negb].
  - destruct H as [H|H]; [|discriminate].
    destruct t as [| | | | | |[|kv d]]; try discriminate.
    cbn [stock_data files log stdout]. rewrite print_items_eq.
    cbn [stock_data files log stdout report_lines].
    rewrite <- !List.app_assoc. reflexivity.
  - replace (report_lines t) with [[Lit "  Stock is empty."]].
    + cbn [stock_data files log stdout]. rewrite <- !List.app_assoc. reflexivity.
    + destruct t as [| | | | | |[|kv d]]; try reflexivity. discriminate.
Qed.



Lemma save_data_returns (path : pystr) (w : world) :
  fst (save_data path w) = Ret tt.
Proof.
  destruct w as [t fs lg out]. unfold save_data, open_write, write_text, set_file.
  run. destruct (fs path) as [[|]| | |]; reflexivity.
Qed.






Lemma get_qty_eq (d : dict) fs lg out (name : pystr) :
  get_qty (VStr name) (mkWorld (VDict d) fs lg out)
  = (Ret (stored d name), mkWorld (VDict d) fs lg out).
Proof. reflexivity. Qed.

Lemma check_low_items_eq (d : dict) fs lg out (threshold : Z) :
  forallb (fun kv => isinstance_int (snd kv)) d = true ->
  check_low_items threshold (mkWorld (VDict d) fs lg out)
  = (Ret (VList (low_names d threshold)), mkWorld (VDict d) fs lg out).
Proof.
  intros Hd. unfold check_low_items. run.
  rewrite (low_items_spec d threshold [] Hd). reflexivity.
Qed.




(** X6: under the invariant, absence means zero stock and nothing else
    does: [get_qty] of a string returns 0 exactly when the item has no
    entry; and it leaves the world as it was. *)
Theorem get_qty_zero_iff_absent (w : world) (name : pystr) :
  invariant (stock_data w) = true ->
  (fst (get_qty (VStr name) w) = Ret (VInt 0)
   <-> entry (stock_data w) name = None) /\
  snd (get_qty (VStr name) w) = w.
Proof.
  destruct w as [t fs lg out]. cbn [stock_data]. intros Hinv.
  destruct t as [| | | | | |d]; try discriminate.
  rewrite get_qty_eq. cbn [fst snd entry]. split; [|reflexivity].
  unfold stored. destruct (dict_get d name) as [v|] eqn:E.
  - destruct (invariant_entry d name v Hinv E) as [n [-> Hn]].
    split; [intros [= H]; lia|discriminate].
  - split; reflexivity.
Qed.

Lemma get_qty_zero_iff_absent_witness :
  (fst (get_qty (VStr (lit "orange")) fruit_world) = Ret (VInt 0)
   <-> entry (stock_data fruit_world) (lit "orange") = None) /\
  snd (get_qty (VStr (lit "orange")) fruit_world) = fruit_world.
Proof.
  apply (get_qty_zero_iff_absent fruit_world (lit "orange")). reflexivity.
Defined.


Lemma dict_set_twice (d : dict) (k : pystr) (v1 v2 : pyval) :
  dict_set (dict_set d k v1) k v2 = dict_set d k v2.
Proof.
  induction d as [|[k' v'] d IH]; cbn [dict_set].
  - destruct (str_eq_dec k k); [reflexivity|contradiction].
  - destruct (str_eq_dec k k') as [E|E]; cbn [dict_set];
      destruct (str_eq_dec k k'); try contradiction; congruence.
Qed.

Lemma dict_set_same_value (d : dict) (k : pystr) (v : pyval) :
  dict_get d k = Some v -> dict_set d k v = d.
Proof.
  induction d as [|[k' v'] d IH]; cbn [dict_get dict_set]; [discriminate|].
  destruct (str_eq_dec k k'); [congruence|]. intros H. rewrite IH; auto.
Qed.

Lemma dict_del_absent (d : dict) (k : pystr) :
  dict_get d k = None -> dict_del d k = d.
Proof.
  induction d as [|[k' v'] d IH]; cbn [dict_get dict_del]; [reflexivity|].
  destruct (str_eq_dec k k'); [discriminate|]. intros H. rewrite IH; auto.
Qed.

Lemma keys_dict_set_present (d : dict) (k : pystr) (v v0 : pyval) :
  dict_get d k = Some v0 -> keys (dict_set d k v) = keys d.
Proof.
  revert v0. induction d as [|[k' v'] d IH]; intros v0;
    cbn [dict_get dict_set]; [discriminate|].
  destruct (str_eq_dec k k'); [reflexivity|]. intros H.
  unfold keys in *. cbn [map fst]. rewrite (IH v0 H). reflexivity.
Qed.

Lemma keys_dict_set_absent (d : dict) (k : pystr) (v : pyval) :
  dict_get d k = None -> keys (dict_set d k v) = keys d ++ [k].
Proof.
  induction d as [|[k' v'] d IH]; cbn [dict_get dict_set]; [reflexivity|].
  destruct (str_eq_dec k k'); [discriminate|]. intros H.
  unfold keys in *. cbn [map fst app]. rewrite (IH H). reflexivity.
Qed.

Lemma keys_dict_del (d : dict) (k : pystr) :
  keys (dict_del d k) = remove str_eq_dec k (keys d).
Proof.
  induction d as [|[k' v'] d IH]; [reflexivity|].
  unfold keys in *. cbn [dict_del map fst remove].
  destruct (str_eq_dec k k'); [exact IH|]. cbn [map fst]. rewrite IH. reflexivity.
Qed.

Lemma other_keys_dict_set (d : dict) (k : pystr) (v : pyval) :
  remove str_eq_dec k (keys (dict_set d k v)) = remove str_eq_dec k (keys d).
Proof.
  induction d as [|[k' v'] d IH]; unfold keys in *; cbn [dict_set map fst remove].
  - destruct (str_eq_dec k k); [reflexivity|contradiction].
  - destruct (str_eq_dec k k') as [E|E]; cbn [map fst remove];
      destruct (str_eq_dec k k'); try contradiction; congruence.
Qed.

Lemma other_keys_dict_del (d : dict) (k : pystr) :
  remove str_eq_dec k (keys (dict_del d k)) = remove str_eq_dec k (keys d).
Proof.
  rewrite keys_dict_del.
  induction (keys d) as [|k' l IH]; cbn [remove]; [reflexivity|].
  destruct (str_eq_dec k k') as [E|E]; [exact IH|].
  cbn [remove]. destruct (str_eq_dec k k'); [contradiction|]. congruence.
Qed.

(** X7: adding twice adds up: after [add_item(item, q1)] and then
    [add_item(item, q2)] the table is the one a single
    [add_item(item, q1 + q2)] leaves. *)
Theorem add_item_is_additive
    (w : world) (d : dict) (name : pystr) (q1 q2 n : Z) :
  stock_data w = VDict d -> as_int (stored d name) = Some n ->
  name <> [] -> 0 <= q1 -> 0 <= q2 ->
  fst (add_item (VStr name) (VInt q2)
         (snd (add_item (VStr name) (VInt q1) w))) = Ret tt /\
  stock_data (snd (add_item (VStr name) (VInt q2)
                     (snd (add_item (VStr name) (VInt q1) w))))
  = stock_data (snd (add_item (VStr name) (VInt (q1 + q2)) w)).
Proof.
  intros Ht Hn Hname H1 H2. destruct w as [t fs lg out].
  cbn [stock_data] in Ht. subst t.
  rewrite (add_item_eq d fs lg out name (VInt q1) q1 n) by auto.
  rewrite (add_item_eq d fs lg out name (VInt (q1 + q2)) (q1 + q2) n)
    by (auto; lia).
  cbn [snd]. rewrite (add_item_eq _ fs _ out name (VInt q2) q2 (n + q1)); auto.
  - cbn [fst snd stock_data]. rewrite dict_set_twice.
    split; [reflexivity|]. do 3 f_equal. lia.
  - unfold stored. rewrite dict_get_set_same. reflexivity.
Qed.

Lemma add_item_is_additive_witness :
  fst (add_item (VStr (lit "apple")) (VInt 2)
         (snd (add_item (VStr (lit "apple")) (VInt 1) fruit_world))) = Ret tt /\
  stock_data (snd (add_item (VStr (lit "apple")) (VInt 2)
                     (snd (add_item (VStr (lit "apple")) (VInt 1) fruit_world))))
  = stock_data (snd (add_item (VStr (lit "apple")) (VInt (1 + 2)) fruit_world)).
Proof.
  apply (add_item_is_additive fruit_world
           [(lit "apple", VInt 7); (lit "banana", VInt 8)] (lit "apple") 1 2 7).
  - reflexivity.
  - reflexivity.
  - discriminate.
  - lia.
  - lia.
Defined.

(** X8: removing what was just added restores the table: under the
    invariant, [add_item(item, q)] followed by [remove_item(item, q)]
    leaves the table exactly as it was, also when the item was absent
    (the entry made by the add is deleted again). *)
Theorem remove_undoes_add (w : world) (name : pystr) (q : Z) :
  invariant (stock_data w) = true -> name <> [] -> 0 <= q ->
  fst (add_item (VStr name) (VInt q) w) = Ret tt /\
  fst (remove_item (VStr name) (VInt q)
         (snd (add_item (VStr name) (VInt q) w))) = Ret tt /\
  stock_data (snd (remove_item (VStr name) (VInt q)
                     (snd (add_item (VStr name) (VInt q) w))))
  = stock_data w.
Proof.
  destruct w as [t fs lg out]. cbn [stock_data]. intros Hinv Hname Hq.
  destruct t as [| | | | | |d]; try discriminate.
  assert (Hs : exists n, as_int (stored d name) = Some n /\ 0 <= n /\
                 (dict_get d name = Some (VInt n) \/
                  dict_get d name = None /\ n = 0)).
  { unfold stored. destruct (dict_get d name) as [v|] eqn:E.
    - destruct (invariant_entry d name v Hinv E) as [n [-> Hn]].
      exists n. repeat split; auto; lia.
    - exists 0. repeat split; auto; lia. }
  destruct Hs as (n & Hn & Hn0 & Hcase).
  rewrite (add_item_eq d fs lg out name (VInt q) q n) by auto.
  cbn [fst snd]. split; [reflexivity|].
  destruct (present_removal_eq (dict_set d name (VInt (n + q))) fs
              (lg ++ [mkLog INFO "Added %d of '%s'. New total: %d"
                            [AVal (VInt q); AVal (VStr name); AVal (VInt (n + q))]])
              out name (VInt q) (VInt (n + q)) q (n + q)) as [lg' E]; auto.
  { apply dict_get_set_same. }
  rewrite E. cbn [fst snd stock_data]. split; [reflexivity|].
  replace (n + q - q) with n by lia.
  destruct Hcase as [Hget | [Hget ->]].
  - assert (Hpos : 0 < n).
    { destruct (invariant_entry d name _ Hinv Hget) as [m [[= <-] Hm]]. exact Hm. }
    destruct (Z.leb_spec n 0); [lia|].
    rewrite dict_set_twice, (dict_set_same_value d name _ Hget). reflexivity.
  - cbn [Z.leb Z.compare]. rewrite dict_del_set, (dict_del_absent d name Hget).
    reflexivity.
Qed.

Lemma remove_undoes_add_witness :
  fst (add_item (VStr (lit "orange")) (VInt 4) fruit_world) = Ret tt /\
  fst (remove_item (VStr (lit "orange")) (VInt 4)
         (snd (add_item (VStr (lit "orange")) (VInt 4) fruit_world))) = Ret tt /\
  stock_data (snd (remove_item (VStr (lit "orange")) (VInt 4)
                     (snd (add_item (VStr (lit "orange")) (VInt 4) fruit_world))))
  = stock_data fruit_world.
Proof.
  apply (remove_undoes_add fruit_world (lit "orange") 4).
  - reflexivity.
  - discriminate.
  - lia.
Defined.

(** X9: in every world and for every quantity, [add_item] and
    [remove_item] of an item leave the other keys of the table in the
    order they had: the list of keys without the item is the same
    before and after. *)
Theorem other_keys_keep_their_order (w : world) (name : pystr) (qty : pyval) :
  remove str_eq_dec name
         (table_keys (stock_data (snd (add_item (VStr name) qty w))))
  = remove str_eq_dec name (table_keys (stock_data w)) /\
  remove str_eq_dec name
         (table_keys (stock_data (snd (remove_item (VStr name) qty w))))
  = remove str_eq_dec name (table_keys (stock_data w)).
Proof.
  destruct w as [t fs lg out]. rewrite add_item_cases, remove_item_cases.
  destruct (truthy (VStr name)); [|run; auto; fail].
  destruct (as_int qty) as [q|]; [|run; auto; fail].
  destruct (q <? 0); [run; auto; fail|].
  destruct t as [| | | | | |d]; try (run; auto; fail).
  split.
  - run. destruct (py_add_int _ q) as [new|e]; simpl; auto.
    repeat (rewrite dict_get_set_same; simpl). apply other_keys_dict_set.
  - run. destruct (dict_get d name) as [old|]; simpl; auto.
    destruct (py_sub_int old q) as [new|e] eqn:Esub; simpl.
    + repeat (rewrite dict_get_set_same; simpl).
      destruct (py_le_int_number new 0 (py_sub_int_number _ _ _ Esub)) as [b ->].
      simpl. destruct b; simpl.
      * repeat (rewrite dict_get_set_same; simpl).
        rewrite other_keys_dict_del. apply other_keys_dict_set.
      * apply other_keys_dict_set.
    + destruct e; simpl; auto.
Qed.

(** X10: where the item of a successful [add_item] ends up: an item
    that was in the table keeps its place, a new item becomes the last
    key. *)
Theorem added_item_position
    (w : world) (d : dict) (name : pystr) (qty : pyval) (q n : Z) :
  stock_data w = VDict d -> as_int (stored d name) = Some n ->
  name <> [] -> as_int qty = Some q -> 0 <= q ->
  table_keys (stock_data (snd (add_item (VStr name) qty w)))
  = match dict_get d name with
    | Some _ => keys d
    | None => keys d ++ [name]
    end.
Proof.
  intros Ht Hn Hname Hq Hpos. destruct w as [t fs lg out].
  cbn [stock_data] in Ht. subst t.
  rewrite (add_item_eq d fs lg out name qty q n) by auto.
  cbn [snd stock_data table_keys].
  destruct (dict_get d name) as [v|] eqn:E.
  - apply (keys_dict_set_present d name _ v E).
  - apply keys_dict_set_absent. exact E.
Qed.

Lemma added_item_position_witness :
  table_keys (stock_data (snd (add_item (VStr (lit "orange")) (VInt 1) fruit_world)))
  = match dict_get [(lit "apple", VInt 7); (lit "banana", VInt 8)] (lit "orange") with
    | Some _ => keys [(lit "apple", VInt 7); (lit "banana", VInt 8)]
    | None => keys [(lit "apple", VInt 7); (lit "banana", VInt 8)] ++ [lit "orange"]
    end.
Proof.
  apply (added_item_position fruit_world
           [(lit "apple", VInt 7); (lit "banana", VInt 8)]
           (lit "orange") (VInt 1) 1 0).
  - reflexivity.
  - reflexivity.
  - discriminate.
  - reflexivity.
  - lia.
Defined.

(** X11: once [stock_data] is no dictionary (a load returns whatever the
    file decodes to), every operation on the table raises and changes
    nothing: [add_item], [get_qty] and [check_low_items] raise
    [AttributeError], [remove_item] raises [TypeError]. *)
Theorem operations_fail_on_a_non_dictionary
    (w : world) (name : pystr) (qty : pyval) (q threshold : Z) :
  is_dict (stock_data w) = false ->
  name <> [] -> as_int qty = Some q -> 0 <= q ->
  add_item (VStr name) qty w = (Raise AttributeError, w) /\
  remove_item (VStr name) qty w = (Raise TypeError, w) /\
  get_qty (VStr name) w = (Raise AttributeError, w) /\
  check_low_items threshold w = (Raise AttributeError, w).
Proof.
  destruct w as [t fs lg out]. cbn [stock_data]. intros Hd Hname Hq Hpos.
  rewrite add_item_cases, remove_item_cases, get_qty_cases.
  rewrite (truthy_name name Hname), Hq.
  destruct (Z.ltb_spec q 0); [lia|].
  unfold check_low_items.
  destruct t; try discriminate; repeat split; reflexivity.
Qed.

Lemma operations_fail_on_a_non_dictionary_witness :
  let w := mkWorld (VList [VInt 1; VInt 2]) (fun _ => Absent true) [] [] in
  add_item (VStr (lit "apple")) (VInt 10) w = (Raise AttributeError, w) /\
  remove_item (VStr (lit "apple")) (VInt 10) w = (Raise TypeError, w) /\
  get_qty (VStr (lit "apple")) w = (Raise AttributeError, w) /\
  check_low_items 5 w = (Raise AttributeError, w).
Proof.
  apply (operations_fail_on_a_non_dictionary
           (mkWorld (VList [VInt 1; VInt 2]) (fun _ => Absent true) [] [])
           (lit "apple") (VInt 10) 10 5).
  - reflexivity.
  - discriminate.
  - reflexivity.
  - lia.
Defined.

Lemma low_names_incl (d : dict) (t1 t2 : Z) :
  t1 <= t2 -> incl (low_names d t1) (low_names d t2).
Proof.
  intros Ht v Hin. unfold low_names in *.
  apply in_map_iff in Hin as [kv [<- Hkv]]. apply filter_In in Hkv as [Hin Hle].
  apply in_map_iff. exists kv. split; [reflexivity|].
  apply filter_In. split; [assumption|].
  destruct (as_int (snd kv)) as [z|]; [|discriminate].
  apply Z.leb_le in Hle. apply Z.leb_le. lia.
Qed.

(** X12: raising the threshold never loses a name: on a table of
    integers, every item [check_low_items] lists for a threshold is also
    listed for any higher threshold. *)
Theorem low_stock_grows_with_threshold (w : world) (d : dict) (t1 t2 : Z) :
  stock_data w = VDict d ->
  forallb (fun kv => isinstance_int (snd kv)) d = true -> t1 <= t2 ->
  exists l1 l2,
    fst (check_low_items t1 w) = Ret (VList l1) /\
    fst (check_low_items t2 w) = Ret (VList l2) /\
    incl l1 l2.
Proof.
  intros Ht Hd Hle. destruct w as [t fs lg out]. cbn [stock_data] in Ht. subst t.
  exists (low_names d t1), (low_names d t2).
  rewrite !check_low_items_eq by assumption.
  repeat split. apply low_names_incl. exact Hle.
Qed.

Lemma low_stock_grows_with_threshold_witness :
  exists l1 l2,
    fst (check_low_items 7 fruit_world) = Ret (VList l1) /\
    fst (check_low_items 8 fruit_world) = Ret (VList l2) /\
    incl l1 l2.
Proof.
  apply (low_stock_grows_with_threshold fruit_world
           [(lit "apple", VInt 7); (lit "banana", VInt 8)] 7 8).
  - reflexivity.
  - reflexivity.
  - lia.
Defined.

Lemma low_items_type_error (d : dict) (threshold : Z) (found : list pyval) :
  existsb (fun kv => negb (is_number (snd kv))) d = true ->
  low_items d threshold found = Raise TypeError.
Proof.
  revert found. induction d as [|[k v] d IH]; intros found H;
    cbn [existsb snd] in H; [discriminate|].
  cbn [low_items]. destruct (is_number v) eqn:Hv.
  - cbn [negb orb] in H.
    destruct (py_le_int_number v threshold Hv) as [b ->].
    destruct b; apply IH; exact H.
  - destruct v; try discriminate; reflexivity.
Qed.

(** X13: a table with a quantity that is not a number (text, [None], a
    list or a dictionary, as a load can bring in) makes
    [check_low_items] raise [TypeError], for every threshold; the world
    stays as it was. *)
Theorem check_low_items_type_error (w : world) (d : dict) (threshold : Z) :
  stock_data w = VDict d ->
  existsb (fun kv => negb (is_number (snd kv))) d = true ->
  check_low_items threshold w = (Raise TypeError, w).
Proof.
  intros Ht Hd. destruct w as [t fs lg out]. cbn [stock_data] in Ht. subst t.
  unfold check_low_items. run.
  rewrite (low_items_type_error d threshold [] Hd). reflexivity.
Qed.

Lemma check_low_items_type_error_witness :
  let w := mkWorld (VDict [(lit "apple", VInt 7); (lit "pear", VStr (lit "two"))])
                   (fun _ => Absent true) [] [] in
  check_low_items 5 w = (Raise TypeError, w).
Proof.
  apply (check_low_items_type_error
           (mkWorld (VDict [(lit "apple", VInt 7); (lit "pear", VStr (lit "two"))])
                    (fun _ => Absent true) [] [])
           [(lit "apple", VInt 7); (lit "pear", VStr (lit "two"))] 5).
  - reflexivity.
  - reflexivity.
Defined.

(* ================================================================= *)
(** ** The reference run *)







Lemma load_data_world (path : pystr) t fs lg out :
  exists lg',
    snd (load_data path (mkWorld t fs lg out)) = mkWorld t fs lg' out.
Proof.
  unfold load_data, read_text. run.
  destruct (fs path); simpl; eauto.
  destruct (Json.loads _) as [v|e]; simpl; eauto.
  destruct e; simpl; eauto.
Qed.






(* ================================================================= *)
(** ** Which calls can change a file *)

Lemma writes_only_on_return_bind {A B} (c : M A) (k : A -> M B) :
  keeps_files c -> (forall a, writes_only_on_return (k a)) ->
  writes_only_on_return (bind c k).
Proof.
  intros Hc Hk w e. unfold bind. specialize (Hc w).
  destruct (c w) as [[a|e'] w1]; cbn [fst snd] in *.
  - intros H. rewrite (Hk a w1 e H). exact Hc.
  - intros _. exact Hc.
Qed.

Lemma add_item_keeps_files (item qty : pyval) : keeps_files (add_item item qty).
Proof.
  intros [t fs lg out]. rewrite add_item_cases.
  destruct item as [| | | |name| |]; try (run; reflexivity).
  destruct (truthy (VStr name)); [|run; reflexivity].
  destruct (as_int qty) as [q|]; [|run; reflexivity].
  destruct (q <? 0); [run; reflexivity|].
  destruct t as [| | | | | |d]; try (run; reflexivity).
  run. destruct (py_add_int _ q) as [new|e0]; simpl; [|reflexivity].
  repeat (rewrite dict_get_set_same; simpl). reflexivity.
Qed.

Lemma remove_item_keeps_files (item qty : pyval) :
  keeps_files (remove_item item qty).
Proof.
  intros [t fs lg out]. rewrite remove_item_cases.
  destruct item as [| | | |name| |]; try (run; reflexivity).
  destruct (truthy (VStr name)); [|run; reflexivity].
  destruct (as_int qty) as [q|]; [|run; reflexivity].
  destruct (q <? 0); [run; reflexivity|].
  destruct t as [| | | | | |d]; try (run; reflexivity).
  run. destruct (dict_get d name) as [old|]; simpl; [|reflexivity].
  destruct (py_sub_int old q) as [new|e0] eqn:Esub; simpl.
  - repeat (rewrite dict_get_set_same; simpl).
    destruct (py_le_int_number new 0 (py_sub_int_number _ _ _ Esub)) as [b ->].
    simpl. destruct b; simpl; [|reflexivity].
    repeat (rewrite dict_get_set_same; simpl). reflexivity.
  - destruct (py_sub_int_raises _ _ _ Esub) as [-> | ->]; reflexivity.
Qed.

Lemma get_qty_keeps_files (item : pyval) : keeps_files (get_qty item).
Proof.
  intros [t fs lg out]. rewrite get_qty_cases.
  destruct item; run; auto. destruct t; auto.
Qed.

Lemma check_low_items_keeps_files (threshold : Z) :
  keeps_files (check_low_items threshold).
Proof.
  intros [t fs lg out]. unfold check_low_items. run.
  destruct t as [| | | | | |d]; auto.
  destruct (low_items d threshold []); auto.
Qed.

Lemma print_keeps_files (line : list piece) : keeps_files (print line).
Proof. intros [t fs lg out]. reflexivity. Qed.

Lemma print_data_keeps_files : keeps_files print_data.
Proof.
  intros [t fs lg out].
  destruct (truthy t) eqn:Ht.
  - destruct t as [| | | | | |d];
      try (simpl in Ht; try discriminate; unfold print_data; run;
           try rewrite Ht; reflexivity).
    rewrite (print_data_eq (VDict d) fs lg out (or_introl eq_refl)).
    reflexivity.
  - rewrite (print_data_eq t fs lg out (or_intror Ht)). reflexivity.
Qed.

Lemma load_data_keeps_files (path : pystr) : keeps_files (load_data path).
Proof.
  intros [t fs lg out].
  destruct (load_data_world path t fs lg out) as [lg' ->]. reflexivity.
Qed.

Lemma main_writes_last : writes_only_on_return main.
Proof.
  unfold main.
  repeat (apply writes_only_on_return_bind;
          [first [ apply load_data_keeps_files
                 | apply add_item_keeps_files
                 | apply remove_item_keeps_files
                 | apply get_qty_keeps_files
                 | apply check_low_items_keeps_files
                 | apply print_keeps_files
                 | apply print_data_keeps_files
                 | intros [t fs lg out]; reflexivity ]
          | intros ? ]).
  intros w e H. rewrite save_data_returns in H. discriminate.
Qed.

(* ================================================================= *)
(** ** Keys of the tables the operations build *)
















(* ================================================================= *)
(** ** The reference run, end to end *)





(** X16: whatever the world, a run of [main] that ends in an exception
    has changed no file: the only write is the save at the very end,
    which is reached only when every earlier call has returned. *)
Theorem main_writes_nothing_when_it_raises (w : world) (e : exn) :
  fst (main w) = Raise e -> files (snd (main w)) = files w.
Proof. apply main_writes_last. Qed.

Lemma main_writes_nothing_when_it_raises_witness :
  let w := empty_world (fun _ => Text (jlit "{'kiwi': 'four'}")) in
  fst (main w) = Raise TypeError /\ files (snd (main w)) = files w.
Proof.
  cbv zeta. split; [vm_compute; reflexivity|].
  apply (main_writes_nothing_when_it_raises
           (empty_world (fun _ => Text (jlit "{'kiwi': 'four'}"))) TypeError).
  vm_compute. reflexivity.
Defined.

(** X17: when [inventory.json] decodes to a JSON value that is not an
    object (a list, a number, a string, [true], [null]), [main] installs
    that value as the table and its first [add_item] raises
    [AttributeError]; nothing has been printed by then. *)
Theorem main_fails_on_a_non_dictionary (w : world) (v : pyval) :
  fst (load_data default_file w) = Ret v -> is_dict v = false ->
  fst (main w) = Raise AttributeError /\
  stock_data (snd (main w)) = v /\
  stdout (snd (main w)) = stdout w.
Proof.
  intros Hload Hv. destruct w as [t fs lg out].
  destruct (load_data_world default_file t fs lg out) as [lg0 Hw0].
  destruct (load_data default_file (mkWorld t fs lg out)) as [r w0] eqn:E0.
  cbn [fst snd] in Hload, Hw0. subst r w0.
  unfold main. rewrite (bind_ret _ _ _ _ _ E0).
  unfold bind at 1. cbn [set_stock files log stdout].
  destruct v as [| | | | | |d]; try discriminate;
    (erewrite bind_raise; [|reflexivity]); repeat split.
Qed.

Lemma main_fails_on_a_non_dictionary_witness :
  let w := empty_world (fun _ => Text (jlit "[1, 2]")) in
  fst (main w) = Raise AttributeError /\
  stock_data (snd (main w)) = VList [VInt 1; VInt 2] /\
  stdout (snd (main w)) = stdout w.
Proof.
  cbv zeta.
  apply (main_fails_on_a_non_dictionary
           (empty_world (fun _ => Text (jlit "[1, 2]")))
           (VList [VInt 1; VInt 2])).
  - vm_compute. reflexivity.
  - reflexivity.
Defined.

(** X18: when [inventory.json] exists but is not valid UTF-8, the
    [UnicodeDecodeError] of the read is caught by none of the clauses of
    [load_data] and ends [main] at once, the world left exactly as it
    was. *)
Theorem main_fails_on_an_undecodable_file (w : world) :
  files w default_file = Undecodable ->
  main w = (Raise UnicodeDecodeError, w).
Proof.
  destruct w as [t fs lg out]. cbn [files]. intros Hf.
  unfold main. apply bind_raise.
  unfold load_data, read_text. run. rewrite Hf. reflexivity.
Qed.

Lemma main_fails_on_an_undecodable_file_witness :
  main (empty_world (fun _ => Undecodable))
  = (Raise UnicodeDecodeError, empty_world (fun _ => Undecodable)).
Proof.
  apply (main_fails_on_an_undecodable_file (empty_world (fun _ => Undecodable))).
  reflexivity.
Defined.


